(** * finance-tracking: the expense form and the analysis tab of [main.py]

    A shallow embedding of the Streamlit script [src/main.py]: the data
    access functions ([get_connection], [load_data]), the submit handler of
    the expense form, and the filter / aggregation statements of the
    analysis tab.

    Conventions.
    - A pandas DataFrame is the list of its rows, in index order.
    - [amount] is represented by its number of hundredths (42.50 is [4250])
      and the sums of lines 120, 133 and 143 are computed exactly. The code
      sums a float64 column: the rounding of those sums, which depends on the
      summation order inside pandas, is not modelled, and no property below
      equates two sums that are associated differently.
    - The ODBC driver is an external collaborator: whether [pyodbc.connect],
      [cursor.execute] and [conn.commit] raise is read from a [driver]
      record. [conn.cursor], [conn.close] and [pd.read_sql] on an open
      connection are taken to succeed.
    - What the user enters in the widgets during a run is an input of the
      run ([form_input], [selection]). *)

From stdpp Require Import base decidable option list strings gmap sorting.
From Stdlib Require Import ZArith Lia.

Local Open Scope string_scope.
Local Open Scope list_scope.
Local Open Scope Z_scope.

(** ** Data model *)

(** [datetime.date] / the [date] column. *)
Record date := Date { d_year : Z; d_month : Z; d_day : Z }.

(** One record of the [Expenses] table of the store: the four columns named
    by the insert and select statements. *)
Record expense := Expense {
  e_date : date;
  e_amount : Z;
  e_category : string;
  e_description : string
}.

(** One row of the in-memory DataFrame built by [load_data]: the four
    selected columns plus the derived [year] and [month] columns. *)
Record row := Row {
  r_date : date;
  amount : Z;
  category : string;
  description : string;
  year : Z;
  month : Z
}.

Abbreviation table := (list row).

#[global] Instance date_eq_dec : EqDecision date.
Proof. solve_decision. Defined.
#[global] Instance expense_eq_dec : EqDecision expense.
Proof. solve_decision. Defined.
#[global] Instance row_eq_dec : EqDecision row.
Proof. solve_decision. Defined.

(** The [months] dict of the analysis tab (line 103), in insertion order. *)
Definition months : list (Z * string) :=
  [ (1, "January"); (2, "February"); (3, "March"); (4, "April");
    (5, "May"); (6, "June"); (7, "July"); (8, "August");
    (9, "September"); (10, "October"); (11, "November"); (12, "December") ].

(** [months.get(m)]: the value bound to key [m], if any. *)
Fixpoint dict_get (d : list (Z * string)) (m : Z) : option string :=
  match d with
  | [] => None
  | (k, v) :: d' => if decide (k = m) then Some v else dict_get d' m
  end.

(** [[k for k, v in months.items() if v in selected_month]] (line 114). *)
Definition month_numbers (selected_month : list string) : list Z :=
  (filter (λ kv : Z * string, kv.2 ∈ selected_month) months).*1.

(** ** Filters (lines 113-116) *)

(** [df[df["year"].isin(selected_year)] if selected_year else df] *)
Definition filterByYears (df : table) (selected_year : list Z) : table :=
  match selected_year with
  | [] => df
  | _ :: _ => filter (λ r, year r ∈ selected_year) df
  end.

(** [filtered_df[filtered_df["month"].isin([...])] if selected_month
     else filtered_df] *)
Definition filterByMonths (filtered_df : table) (selected_month : list string)
  : table :=
  match selected_month with
  | [] => filtered_df
  | _ :: _ =>
      filter (λ r, month r ∈ month_numbers selected_month) filtered_df
  end.

(** [if selected_category != "All":
       filtered_df = filtered_df[filtered_df["category"] == selected_category]] *)
Definition filterByCategory (filtered_df : table) (selected_category : string)
  : table :=
  if decide (selected_category ≠ "All")
  then filter (λ r, category r = selected_category) filtered_df
  else filtered_df.

(** The assignments to [filtered_df] of lines 111-116, in order; the one of
    line 111 is overwritten by line 113 before it is read. *)
Definition filtered_df (df : table) (selected_year : list Z)
    (selected_month : list string) (selected_category : string) : table :=
  let filtered_df := filter (λ r, year r ∈ selected_year) df in
  let filtered_df := filterByYears df selected_year in
  let filtered_df := filterByMonths filtered_df selected_month in
  filterByCategory filtered_df selected_category.

(** [filtered_df['amount'].sum()] (line 120). *)
Definition totalSpending (rows : table) : Z :=
  foldr (λ r acc, amount r + acc) 0 rows.

(** ** Grouped sums (lines 124, 133, 143) *)

(** [df.groupby(keys)["amount"].sum().reset_index()]: one output row per
    distinct key, in ascending key order (groupby sorts its group keys),
    carrying the sum of [amount] over the rows of the group. The groups are
    accumulated row by row into a key-ordered list. *)
Section groupby.
Context {K : Type} (kcmp : K → K → comparison) (key : row → K).

Fixpoint group_add (k : K) (a : Z) (gs : list (K * Z)) : list (K * Z) :=
  match gs with
  | [] => [(k, a)]
  | (k', s) :: gs' =>
      match kcmp k k' with
      | Lt => (k, a) :: (k', s) :: gs'
      | Eq => (k', s + a) :: gs'
      | Gt => (k', s) :: group_add k a gs'
      end
  end.

Definition groupby_sum (df : table) : list (K * Z) :=
  foldl (λ gs r, group_add (key r) (amount r) gs) [] df.

(** The amount recorded for key [k] in a list of groups. *)
Fixpoint group_total (k : K) (gs : list (K * Z)) : Z :=
  match gs with
  | [] => 0
  | (k', s) :: gs' =>
      match kcmp k k' with
      | Eq => s + group_total k gs'
      | _ => group_total k gs'
      end
  end.

(** The groups are in strictly ascending key order. *)
Definition key_sorted (gs : list (K * Z)) : Prop :=
  StronglySorted (λ a b, kcmp a b = Lt) gs.*1.

End groupby.

(** Lexicographic order on the [(year, month)] group key. *)
Definition ym_compare (a b : Z * Z) : comparison :=
  match Z.compare a.1 b.1 with
  | Eq => Z.compare a.2 b.2
  | c => c
  end.

(** Lexicographic order on the [(year, month, category)] group key. *)
Definition ymc_compare (a b : Z * Z * string) : comparison :=
  match ym_compare a.1 b.1 with
  | Eq => String.compare a.2 b.2
  | c => c
  end.

Definition ym_key (r : row) : Z * Z := (year r, month r).
Definition ymc_key (r : row) : Z * Z * string := (year r, month r, category r).

(** One point of the monthly trend chart: after [month.map(months)] the
    month column holds the display name ([None] renders pandas' NaN for a
    number that is not a key of [months]). *)
Record trend_row := TrendRow {
  t_year : Z;
  t_month : option string;
  t_amount : Z
}.

#[global] Instance trend_row_eq_dec : EqDecision trend_row.
Proof. solve_decision. Defined.

(** [line_data["month"] = line_data["month"].map(months)] *)
Definition map_months (gs : list (Z * Z * Z)) : list trend_row :=
  (λ g, TrendRow g.1.1 (dict_get months g.1.2) g.2) <$> gs.

(** The monthly trend, lines 124-134. The value built by lines 124-126
    (grouped by year, month and category, then restricted to the selected
    years) is replaced at line 133 by a fresh grouping of [df]. *)
Definition monthlyTrend (df : table) (selected_year : list Z)
  : list trend_row :=
  let line_data := groupby_sum ymc_compare ymc_key df in
  let line_data := filter (λ g : Z * Z * string * Z, g.1.1.1 ∈ selected_year)
                     line_data in
  let line_data :=
    (λ g : Z * Z * string * Z,
       (g.1.1.1, dict_get months g.1.1.2, g.1.2, g.2)) <$> line_data in
  let line_data := groupby_sum ym_compare ym_key df in
  map_months line_data.

(** [filtered_df.groupby("category")["amount"].sum().reset_index()] *)
Definition categoryBreakdown (filtered_df : table) : list (string * Z) :=
  groupby_sum String.compare category filtered_df.

(** ** The store, the driver and the script state *)

(** Python exceptions, by what [except pyodbc.Error] distinguishes. *)
Inductive exn :=
  | PyodbcError (msg : string)
  | OtherError (msg : string).

(** Answers of the ODBC driver. [pyodbc.connect] is indexed by the number of
    connection attempts made before it; [execute] and [commit] by the
    connection they run on. [None] is success. *)
Record driver := Driver {
  connect_fails : nat → option exn;
  execute_fails : nat → option exn;
  commit_fails : nat → option exn
}.

(** An open connection: its number and the rows of its open transaction. *)
Record connection := Connection {
  conn_id : nat;
  uncommitted : list expense
}.

(** Values kept in [st.session_state]. *)
Inductive sval :=
  | VDate (d : date)
  | VFloat (x : Z)
  | VStr (s : string).

(** Elements put on the page. [StMetric] carries the amount that the
    f-string formats. *)
Inductive ui_event :=
  | StMarkdown (html : string)
  | StWrite (text : string)
  | StSuccess (text : string)
  | StWarning (text : string)
  | StDateInput (label : string) (value : option sval)
  | StNumberInput (label : string)
  | StTextInput (label : string)
  | StFormSubmitButton (label : string)
  | StMultiselectYear (label : string) (options default : list Z)
  | StMultiselectMonth (label : string) (options default : list string)
  | StSelectbox (label : string) (options : list string)
  | StMetric (label : string) (value : Z)
  | PlotlyLine (data : list trend_row)
  | PlotlyPie (data : list (string * Z))
  | StDataframe (rows : list expense).

Record world := World {
  store : list expense;
  cache : option table;
  session_state : gmap string sval;
  stdout : list string;
  connects : nat;
  page : list ui_event
}.

Definition set_store (st : list expense) (w : world) : world :=
  World st (cache w) (session_state w) (stdout w) (connects w) (page w).
Definition set_cache (c : option table) (w : world) : world :=
  World (store w) c (session_state w) (stdout w) (connects w) (page w).
Definition set_session_state (ss : gmap string sval) (w : world) : world :=
  World (store w) (cache w) ss (stdout w) (connects w) (page w).
Definition set_stdout (out : list string) (w : world) : world :=
  World (store w) (cache w) (session_state w) out (connects w) (page w).
Definition set_connects (n : nat) (w : world) : world :=
  World (store w) (cache w) (session_state w) (stdout w) n (page w).
Definition set_page (p : list ui_event) (w : world) : world :=
  World (store w) (cache w) (session_state w) (stdout w) (connects w) p.

(** How a piece of the script ends: with a value, with an exception that
    propagates, or with [st.rerun()] abandoning the current run. *)
Inductive outcome (A : Type) :=
  | Ret (a : A)
  | Raise (e : exn)
  | Rerun.
Arguments Ret {A} a.
Arguments Raise {A} e.
Arguments Rerun {A}.

Definition script (A : Type) : Type := world → outcome A * world.

Definition ret {A} (a : A) : script A := λ w, (Ret a, w).
Definition raise {A} (e : exn) : script A := λ w, (Raise e, w).
Definition bind {A B} (m : script A) (k : A → script B) : script B :=
  λ w, match m w with
       | (Ret a, w') => k a w'
       | (Raise e, w') => (Raise e, w')
       | (Rerun, w') => (Rerun, w')
       end.

#[global] Instance script_ret : MRet script := @ret.
#[global] Instance script_bind : MBind script := λ A B k m, bind m k.

(** [try: body except pyodbc.Error as e: handler]. *)
Definition try_except_pyodbc {A} (body : script A) (handler : exn → script A)
  : script A :=
  λ w, match body w with
       | (Raise (PyodbcError msg), w') => handler (PyodbcError msg) w'
       | r => r
       end.

Definition exn_str (e : exn) : string :=
  match e with PyodbcError msg => msg | OtherError msg => msg end.

Definition print (line : string) : script unit :=
  λ w, (Ret (), set_stdout (stdout w ++ [line]) w).
Definition show (ev : ui_event) : script unit :=
  λ w, (Ret (), set_page (page w ++ [ev]) w).

(** ** Data access *)

Section data_access.
Variable drv : driver.

(** [pyodbc.connect(...)]: one attempt, answered by the driver. *)
Definition pyodbc_connect : script connection :=
  λ w, let w' := set_connects (S (connects w)) w in
       match connect_fails drv (connects w) with
       | Some e => (Raise e, w')
       | None => (Ret (Connection (connects w) []), w')
       end.

(** [cursor.execute(insert_query, params)]: the row joins the open
    transaction of the connection. *)
Definition cursor_execute (conn : connection) (e : expense)
  : script connection :=
  match execute_fails drv (conn_id conn) with
  | Some err => raise err
  | None => ret (Connection (conn_id conn) (uncommitted conn ++ [e]))
  end.

(** [conn.commit()]: the open transaction becomes part of the store. *)
Definition conn_commit (conn : connection) : script connection :=
  match commit_fails drv (conn_id conn) with
  | Some err => raise err
  | None =>
      λ w, (Ret (Connection (conn_id conn) []),
            set_store (store w ++ uncommitted conn) w)
  end.

(** [conn.close()]: what was not committed is dropped with the connection. *)
Definition conn_close (conn : connection) : script unit := ret ().

(** [get_connection()], lines 20-30. *)
Definition get_connection : script connection :=
  try_except_pyodbc
    (conn ← pyodbc_connect;
     print "✅ Connection successful!";;
     ret conn)
    (λ e,
     print ("❌ Connection failed: " +:+ exn_str e);;
     raise e).

(** [pd.read_sql("SELECT date, amount, category, description FROM Expenses",
    conn)]: the committed rows, and those of the connection's own
    transaction. *)
Definition read_sql (conn : connection) : script (list expense) :=
  λ w, (Ret (store w ++ uncommitted conn), w).

(** [df["year"] = df["date"].dt.year; df["month"] = df["date"].dt.month] *)
Definition derive (e : expense) : row :=
  Row (e_date e) (e_amount e) (e_category e) (e_description e)
      (d_year (e_date e)) (d_month (e_date e)).

(** The body of [load_data], lines 34-41. *)
Definition load_data_body : script table :=
  conn ← get_connection;
  df ← read_sql conn;
  let df := derive <$> df in
  conn_close conn;;
  ret df.

(** [@st.cache_data def load_data()]: the body runs when nothing is cached,
    and its result is cached when it returns. *)
Definition load_data : script table :=
  λ w, match cache w with
       | Some df => (Ret df, w)
       | None =>
           match load_data_body w with
           | (Ret df, w') => (Ret df, set_cache (Some df) w')
           | r => r
           end
       end.

(** [st.cache_data.clear()] *)
Definition st_cache_data_clear : script unit :=
  λ w, (Ret (), set_cache None w).

(** ** The expense form *)

Definition form_keys : list string :=
  ["selected_date"; "value"; "spending_type"; "category"; "comments"].

(** [st.rerun()] *)
Definition st_rerun {A} : script A := λ w, (Rerun, w).

(** [for key in keys: if key in st.session_state: del st.session_state[key]] *)
Definition del_keys (keys : list string) : script unit :=
  λ w, (Ret (),
        set_session_state
          (foldl (λ ss key, if decide (is_Some (ss !! key))
                            then delete key ss else ss)
                 (session_state w) keys) w).

(** [reset_form()], lines 43-48. *)
Definition reset_form : script unit :=
  del_keys form_keys;;
  st_rerun.

(** The [if submitted:] block, lines 74-89. *)
Definition on_submit (selected_date : date) (value : Z)
    (category comments : string) : script unit :=
  conn ← get_connection;
  let cursor := conn in
  conn ← cursor_execute cursor
            (Expense selected_date value category comments);
  conn ← conn_commit conn;
  conn_close conn;;
  show (StSuccess "Expense added succesfully");;
  st_cache_data_clear;;
  reset_form.

(** Lines 51-60: a key that is missing gets its default. *)
Definition setdefault (key : string) (v : sval) : script unit :=
  λ w, (Ret (),
        if decide (is_Some (session_state w !! key)) then w
        else set_session_state (<[key := v]> (session_state w)) w).

Definition init_session_state (today : date) : script unit :=
  setdefault "selected_date" (VDate today);;
  setdefault "value" (VFloat 0);;
  setdefault "spending_type" (VStr "Recurring");;
  setdefault "category" (VStr "Grocery Shopping");;
  setdefault "comments" (VStr "").

Definition categories : list string :=
  ["Grocery Shopping"; "Bills"; "Home"; "Health"; "Transport"; "Debt";
   "Shopping/Fun"].

(** What the user entered in the form during this run. *)
Record form_input := FormInput {
  in_date : date;
  in_value : Z;
  in_category : string;
  in_comments : string;
  submitted : bool
}.

(** [with tab1:], lines 63-89. *)
Definition expenses_tab (f : form_input) : script unit :=
  show (StMarkdown
          "<h1 style='text-align: Left; color: red;'>Expenses</h1>");;
  show (StWrite "Please introduce the expense information:");;
  sd ← (λ w, (Ret (session_state w !! "selected_date"), w));
  show (StDateInput "Select a date" sd);;
  show (StNumberInput "Enter an amount");;
  show (StSelectbox "Select a category" categories);;
  show (StTextInput "Comments");;
  show (StFormSubmitButton "Submit");;
  if submitted f
  then on_submit (in_date f) (in_value f) (in_category f) (in_comments f)
  else ret ().

(** ** The analysis tab *)

(** [Series.unique()]: the distinct values, in order of first appearance. *)
Definition unique `{EqDecision A} (l : list A) : list A :=
  reverse (remove_dups (reverse l)).

(** What the user chose in the filter controls during this run. *)
Record selection := Selection {
  selected_year : list Z;
  selected_month : list string;
  selected_category : string
}.

(** [filtered_df[["date", "amount", "category", "description"]]] *)
Definition four_columns (r : row) : expense :=
  Expense (r_date r) (amount r) (category r) (description r).

(** [with tab2:], lines 95-150. *)
Definition analysis_tab (df : table) (sel : selection) : script unit :=
  show (StMarkdown
          "<h2 style='text-align: Left; color: green;'>Analysis</h2>");;
  if decide (df = [])
  then show (StWarning "No data available. Please add expenses first.")
  else
    let years := merge_sort (flip Z.le) (unique (year <$> df)) in
    show (StMultiselectYear "Select Year(s)"
            (merge_sort (flip Z.le) (unique (year <$> df)))
            (match year <$> df with
             | [] => []
             | y :: ys => [foldr Z.max y ys]
             end));;
    show (StMultiselectMonth "Select Month(s)" months.*2 months.*2);;
    show (StSelectbox "Select Category"
            ("All" :: unique (category <$> df)));;
    let filtered_df :=
      filtered_df df (selected_year sel) (selected_month sel)
        (selected_category sel) in
    show (StMarkdown
            "<h4 style='text-align: Left; color: lightgreen;'>Total Spending</h4>");;
    show (StMetric "Total Spending" (totalSpending filtered_df));;
    show (StMarkdown
            "<h4 style='text-align: Left; color: lightgreen;'>Monthly Spending Trend</h4>");;
    let line_data := monthlyTrend df (selected_year sel) in
    show (PlotlyLine line_data);;
    show (StMarkdown
            "<h4 style='text-align: Left; color: lightgreen;'>Spending by Category</h4>");;
    let pie_data := categoryBreakdown filtered_df in
    show (PlotlyPie pie_data);;
    show (StMarkdown
            "<h4 style='text-align: Left; color: lightgreen;'>Expenses Details</h4>");;
    show (StDataframe (four_columns <$> filtered_df)).

(** One run of the script, top to bottom. *)
Definition main (today : date) (f : form_input) (sel : selection)
  : script unit :=
  show (StMarkdown
          "<h1 style='text-align: center; color: gray;'>Finance Performance Tracking</h1>");;
  init_session_state today;;
  expenses_tab f;;
  df ← load_data;
  analysis_tab df sel.

End data_access.

(** ** Reading the selections *)

(** The month number [m] is chosen when its display name is selected. *)
Definition month_chosen (selected_month : list string) (m : Z) : Prop :=
  match dict_get months m with
  | Some name => name ∈ selected_month
  | None => False
  end.

#[global] Instance month_chosen_dec sel m : Decision (month_chosen sel m).
Proof. unfold month_chosen. destruct (dict_get months m); apply _. Defined.

(** A row passes the year, month or category control: the control is in its
    pass-through position, or the row's field is selected. *)
Definition passes_year (selected_year : list Z) (r : row) : Prop :=
  selected_year = [] ∨ year r ∈ selected_year.
Definition passes_month (selected_month : list string) (r : row) : Prop :=
  selected_month = [] ∨ month_chosen selected_month (month r).
Definition passes_category (selected_category : string) (r : row) : Prop :=
  selected_category = "All" ∨ category r = selected_category.

(** The row shows the four columns of the record [e]. *)
Definition matches (e : expense) (r : row) : Prop := four_columns r = e.

#[global] Instance matches_dec e r : Decision (matches e r).
Proof. unfold matches. apply _. Defined.

(** The driver answers all three calls of a submission made in [w]:
    [pyodbc.connect], then [execute] and [commit] on the new connection. *)
Definition submit_ok (drv : driver) (w : world) : Prop :=
  connect_fails drv (connects w) = None
  ∧ execute_fails drv (connects w) = None
  ∧ commit_fails drv (connects w) = None.

#[global] Instance exn_eq_dec : EqDecision exn.
Proof. solve_decision. Defined.

#[global] Instance submit_ok_dec drv w : Decision (submit_ok drv w).
Proof. unfold submit_ok. apply _. Defined.

(** The exception of the first driver call of a submission made in [w] that
    fails, in the order of the handler: connect, execute, commit. *)
Definition submit_failure (drv : driver) (w : world) : option exn :=
  match connect_fails drv (connects w) with
  | Some e => Some e
  | None =>
      match execute_fails drv (connects w) with
      | Some e => Some e
      | None => commit_fails drv (connects w)
      end
  end.

(** The elements of the page that display an aggregate or a chart. *)
Definition is_report (ev : ui_event) : bool :=
  match ev with
  | StMetric _ _ | PlotlyLine _ | PlotlyPie _ | StDataframe _ => true
  | _ => false
  end.

(** The cached table, when there is one, is the table of the store. *)
Definition cache_coherent (w : world) : Prop :=
  match cache w with
  | Some df => df = derive <$> store w
  | None => True
  end.

(** The defaults that lines 51-60 give to the form keys. *)
Definition form_defaults (today : date) : gmap string sval :=
  {[ "selected_date" := VDate today;
     "value" := VFloat 0;
     "spending_type" := VStr "Recurring";
     "category" := VStr "Grocery Shopping";
     "comments" := VStr "" ]}.

(** ** Sample data *)

Definition rec_rent : expense := Expense (Date 2023 1 9) 1000 "Home" "rent".
Definition rec_electric : expense :=
  Expense (Date 2024 3 5) 4250 "Bills" "electric".
Definition rec_bus : expense := Expense (Date 2024 4 1) 300 "Transport" "bus".

Definition row_rent : row := Eval cbv in derive rec_rent.
Definition row_electric : row := Eval cbv in derive rec_electric.
Definition row_bus : row := Eval cbv in derive rec_bus.

Definition sample_df : table := [row_rent; row_electric; row_bus].

(** A driver that always answers, one whose commit fails, and one that
    cannot reach the host. *)
Definition drv_ok : driver := Driver (λ _, None) (λ _, None) (λ _, None).
Definition drv_commit_fails : driver :=
  Driver (λ _, None) (λ _, None) (λ _, Some (PyodbcError "deadlock")).
Definition drv_down : driver :=
  Driver (λ _, Some (PyodbcError "login timeout expired"))
         (λ _, None) (λ _, None).

Definition world_empty : world := World [] None ∅ [] 0 [].
Definition world_one_electric : world :=
  World [rec_electric] (Some [row_electric]) ∅ [] 0 [].
Definition world_cached : world :=
  World [rec_rent] (Some [row_rent])
        {["comments" := VStr "rent"; "value" := VFloat 1000]} [] 3 [].

(** * Properties *)

(** ** The [months] dict *)

Lemma dict_get_elem (d : list (Z * string)) m v :
  NoDup d.*1 → dict_get d m = Some v ↔ (m, v) ∈ d.
Proof.
  induction d as [|[k x] d IH]; simpl; intros Hnd.
  - split; [done | by intros ?%elem_of_nil].
  - apply NoDup_cons in Hnd as [Hk Hnd]. rewrite elem_of_cons.
    case_decide as Hkm.
    + subst k. split.
      * intros [= ->]. by left.
      * intros [[= ->] | Hin]; [done|].
        destruct Hk. change m with (m, v).1. by apply list_elem_of_fmap_2.
    + rewrite IH by done. split; [by right|].
      intros [[= -> ->] | Hin]; [done | done].
Qed.

Lemma months_keys_NoDup : NoDup months.*1.
Proof. apply (bool_decide_unpack _). by vm_compute. Qed.

Lemma month_numbers_spec (selected_month : list string) (m : Z) :
  m ∈ month_numbers selected_month ↔ month_chosen selected_month m.
Proof.
  unfold month_numbers, month_chosen. rewrite list_elem_of_fmap. split.
  - intros [[k v] [-> [Hsel Hin]%list_elem_of_filter]]. cbn [fst snd] in *.
    apply (dict_get_elem _ _ _ months_keys_NoDup) in Hin. by rewrite Hin.
  - destruct (dict_get months m) as [name|] eqn:Hget; [|done].
    intros Hsel. exists (m, name). split; [done|].
    apply list_elem_of_filter. split; [done|].
    by apply (dict_get_elem _ _ _ months_keys_NoDup).
Qed.

(** ** Filters *)

Lemma filter_all {A} (P : A → Prop) `{!∀ x, Decision (P x)} (l : list A) :
  (∀ x, P x) → filter P l = l.
Proof.
  intros HP. induction l as [|x l IH]; [done|].
  rewrite filter_cons_True by done. by rewrite IH.
Qed.

Lemma filterByYears_passes (df : table) (selected_year : list Z) :
  filterByYears df selected_year = filter (passes_year selected_year) df.
Proof.
  unfold filterByYears, passes_year. destruct selected_year as [|y ys].
  - symmetry. apply filter_all. by left.
  - apply list_filter_iff. intros r. split; [by right|]. by intros [?|?].
Qed.

Lemma filterByMonths_passes (rows : table) (selected_month : list string) :
  filterByMonths rows selected_month
  = filter (passes_month selected_month) rows.
Proof.
  unfold filterByMonths, passes_month. destruct selected_month as [|m ms].
  - symmetry. apply filter_all. by left.
  - apply list_filter_iff. intros r. rewrite month_numbers_spec.
    split; [by right|]. by intros [?|?].
Qed.

Lemma filterByCategory_passes (rows : table) (selected_category : string) :
  filterByCategory rows selected_category
  = filter (passes_category selected_category) rows.
Proof.
  unfold filterByCategory, passes_category. case_decide as Hc.
  - apply list_filter_iff. intros r. split; [by right|]. by intros [?|?].
  - symmetry. apply filter_all. by left.
Qed.

(** C2. For a non-empty selection of years (of months), [filterByYears]
    ([filterByMonths]) returns exactly the rows whose year (whose month, read
    through its display name) is selected, in table order; for the empty
    selection each returns its input unchanged. *)
Theorem filterByYears_filterByMonths_spec
    (df : table) (selected_year : list Z) (selected_month : list string) :
  selected_year ≠ [] → selected_month ≠ [] →
  filterByYears df selected_year = filter (λ r, year r ∈ selected_year) df
  ∧ filterByMonths df selected_month
    = filter (λ r, month_chosen selected_month (month r)) df
  ∧ filterByYears df [] = df
  ∧ filterByMonths df [] = df.
Proof.
  intros Hy Hm. repeat split.
  - by destruct selected_year.
  - destruct selected_month as [|m ms]; [done|]. unfold filterByMonths.
    apply list_filter_iff. intros r. apply month_numbers_spec.
Qed.

Lemma filterByYears_filterByMonths_spec_witness :
  filterByYears sample_df [2024] = filter (λ r, year r ∈ [2024]) sample_df
  ∧ filterByMonths sample_df ["March"]
    = filter (λ r, month_chosen ["March"] (month r)) sample_df
  ∧ filterByYears sample_df [] = sample_df
  ∧ filterByMonths sample_df [] = sample_df.
Proof.
  apply (filterByYears_filterByMonths_spec sample_df [2024] ["March"]); done.
Defined.

(** C3. [filterByCategory] with the sentinel ["All"] is the identity; with
    any other category [c] it returns exactly the rows whose category is
    [c], in table order. *)
Theorem filterByCategory_spec (rows : table) (c : string) :
  c ≠ "All" →
  filterByCategory rows "All" = rows
  ∧ filterByCategory rows c = filter (λ r, category r = c) rows.
Proof.
  intros Hc. split; [done|].
  unfold filterByCategory. by rewrite decide_True.
Qed.

Lemma filterByCategory_spec_witness :
  filterByCategory sample_df "All" = sample_df
  ∧ filterByCategory sample_df "Bills"
    = filter (λ r, category r = "Bills") sample_df.
Proof. apply (filterByCategory_spec sample_df "Bills"). done. Defined.

(** ** Total spending *)

Lemma totalSpending_cons r rows :
  totalSpending (r :: rows) = amount r + totalSpending rows.
Proof. done. Qed.

(** ** The filter pipeline *)

Lemma filtered_df_passes (df : table) (selected_year : list Z)
    (selected_month : list string) (selected_category : string) :
  filtered_df df selected_year selected_month selected_category
  = filter (λ r, passes_year selected_year r
                 ∧ passes_month selected_month r
                 ∧ passes_category selected_category r) df.
Proof.
  unfold filtered_df. cbv zeta.
  rewrite filterByCategory_passes, filterByMonths_passes, filterByYears_passes.
  rewrite !list_filter_filter. apply list_filter_iff. intros r. tauto.
Qed.

(** Rendering only appends to the page. *)
Lemma show_bind {A} (ev : ui_event) (k : script A) (w : world) :
  (show ev;; k) w = k (set_page (page w ++ [ev]) w).
Proof. done. Qed.

Lemma show_bind_world {A} (ev : ui_event) (k : script A) st c ss out n p :
  (show ev;; k) (World st c ss out n p) = k (World st c ss out n (p ++ [ev])).
Proof. done. Qed.

Lemma show_world (ev : ui_event) st c ss out n p :
  show ev (World st c ss out n p) = (Ret (), World st c ss out n (p ++ [ev])).
Proof. done. Qed.

Lemma analysis_tab_page (df : table) (sel : selection) (w : world) :
  ∃ evs, analysis_tab df sel w = (Ret (), set_page (page w ++ evs) w).
Proof.
  destruct w as [st c ss out n p]. unfold analysis_tab, set_page.
  cbn [store cache session_state stdout connects page].
  rewrite show_bind_world. case_decide.
  - rewrite show_world. eexists [_; _]. by rewrite <- app_assoc.
  - rewrite !show_bind_world, show_world. eexists.
    do 2 f_equal. rewrite <- !app_assoc. reflexivity.
Qed.

Example filtered_df_sample :
  filtered_df sample_df [2024] ["March"; "April"] "Bills" = [row_electric]
  ∧ filtered_df sample_df [] [] "All" = sample_df
  ∧ totalSpending (filtered_df sample_df [2024] [] "All") = 4550.
Proof. by vm_compute. Qed.

(** C10. Each filter returns a subsequence of its input (the surviving rows,
    unmodified and in their original order); rendering the analysis tab
    leaves the cached table and the store as they were; and the three
    filters composed yield exactly the rows that pass all three controls,
    in table order. *)
Theorem filters_subsequence_pipeline (df : table) (sel : selection)
    (w : world) :
  filterByYears df (selected_year sel) `sublist_of` df
  ∧ filterByMonths df (selected_month sel) `sublist_of` df
  ∧ filterByCategory df (selected_category sel) `sublist_of` df
  ∧ filtered_df df (selected_year sel) (selected_month sel)
      (selected_category sel)
    = filter (λ r, passes_year (selected_year sel) r
                   ∧ passes_month (selected_month sel) r
                   ∧ passes_category (selected_category sel) r) df
  ∧ cache (analysis_tab df sel w).2 = cache w
  ∧ store (analysis_tab df sel w).2 = store w.
Proof.
  split_and!.
  - rewrite filterByYears_passes. apply sublist_filter.
  - rewrite filterByMonths_passes. apply sublist_filter.
  - rewrite filterByCategory_passes. apply sublist_filter.
  - apply filtered_df_passes.
  - by destruct (analysis_tab_page df sel w) as [evs ->].
  - by destruct (analysis_tab_page df sel w) as [evs ->].
Qed.

(** ** Grouped sums *)

Section groupby_facts.
Context {K : Type} `{EqDecision K} (kcmp : K → K → comparison) (key : row → K).
Hypothesis kcmp_eq : ∀ a b, kcmp a b = Eq ↔ a = b.
Hypothesis kcmp_gt_lt : ∀ a b, kcmp a b = Gt → kcmp b a = Lt.
Hypothesis kcmp_trans :
  ∀ a b c, kcmp a b = Lt → kcmp b c = Lt → kcmp a c = Lt.

Lemma group_total_cons k k' s gs :
  group_total kcmp k ((k', s) :: gs)
  = (if decide (k = k') then s else 0) + group_total kcmp k gs.
Proof.
  simpl. destruct (kcmp k k') eqn:Hc; case_decide as Hk; try done.
  - by apply kcmp_eq in Hc.
  - apply kcmp_eq in Hk. congruence.
  - apply kcmp_eq in Hk. congruence.
Qed.

Lemma group_total_add k k' a gs :
  group_total kcmp k (group_add kcmp k' a gs)
  = group_total kcmp k gs + (if decide (k = k') then a else 0).
Proof.
  induction gs as [|[k'' s] gs IH].
  - cbn [group_add]. rewrite group_total_cons. simpl. lia.
  - cbn [group_add]. destruct (kcmp k' k'') eqn:Hc.
    + apply kcmp_eq in Hc as ->. rewrite !group_total_cons.
      case_decide; lia.
    + rewrite !group_total_cons. lia.
    + rewrite !group_total_cons, IH. lia.
Qed.

Lemma group_total_foldl k acc (df : table) :
  group_total kcmp k
    (foldl (λ gs r, group_add kcmp (key r) (amount r) gs) acc df)
  = group_total kcmp k acc + totalSpending (filter (λ r, key r = k) df).
Proof.
  revert acc. induction df as [|r df IH]; intros acc; simpl; [lia|].
  rewrite IH, group_total_add, filter_cons.
  repeat case_decide; subst; rewrite ?totalSpending_cons; try done; lia.
Qed.

(** The amount recorded for a key is the sum of [amount] over the rows of
    the table that carry the key. *)
Lemma groupby_sum_total k (df : table) :
  group_total kcmp k (groupby_sum kcmp key df)
  = totalSpending (filter (λ r, key r = k) df).
Proof. unfold groupby_sum. by rewrite group_total_foldl. Qed.

Lemma group_add_keys k0 k a gs :
  k0 ∈ (group_add kcmp k a gs).*1 ↔ k0 = k ∨ k0 ∈ gs.*1.
Proof.
  induction gs as [|[k' s] gs IH]; cbn [group_add].
  - rewrite !fmap_cons, elem_of_cons. simpl. tauto.
  - destruct (kcmp k k') eqn:Hc.
    + apply kcmp_eq in Hc as ->. rewrite !fmap_cons, !elem_of_cons. simpl.
      tauto.
    + rewrite !fmap_cons, !elem_of_cons. simpl. tauto.
    + rewrite !fmap_cons, !elem_of_cons, IH. simpl. tauto.
Qed.

Lemma groupby_sum_keys k (df : table) :
  k ∈ (groupby_sum kcmp key df).*1 ↔ k ∈ key <$> df.
Proof.
  unfold groupby_sum.
  enough (∀ acc, k ∈ (foldl (λ gs r, group_add kcmp (key r) (amount r) gs)
                        acc df).*1 ↔ k ∈ acc.*1 ∨ k ∈ key <$> df) as Hgen.
  { rewrite Hgen. simpl. rewrite elem_of_nil. tauto. }
  induction df as [|r df IH]; intros acc; simpl.
  - rewrite elem_of_nil. tauto.
  - rewrite IH, group_add_keys, elem_of_cons. tauto.
Qed.

Lemma group_add_sorted k a gs :
  key_sorted kcmp gs → key_sorted kcmp (group_add kcmp k a gs).
Proof.
  unfold key_sorted. induction gs as [|[k' s] gs IH]; cbn [group_add].
  - intros _. repeat constructor.
  - rewrite fmap_cons. simpl. intros [Hs Hall]%StronglySorted_inv.
    destruct (kcmp k k') eqn:Hc.
    + rewrite fmap_cons. simpl. by constructor.
    + rewrite !fmap_cons. simpl. constructor.
      * by constructor.
      * constructor; [done|]. eapply Forall_impl; [exact Hall|].
        intros k'' ?. by eapply kcmp_trans.
    + rewrite fmap_cons. simpl. constructor; [by apply IH|].
      apply Forall_forall. intros k'' [->|Hin]%group_add_keys.
      * by apply kcmp_gt_lt.
      * by eapply Forall_forall in Hall.
Qed.

Lemma groupby_sum_sorted (df : table) : key_sorted kcmp (groupby_sum kcmp key df).
Proof.
  unfold groupby_sum.
  enough (∀ acc, key_sorted kcmp acc →
            key_sorted kcmp (foldl (λ gs r, group_add kcmp (key r) (amount r) gs)
                          acc df)) as Hgen.
  { apply Hgen. constructor. }
  induction df as [|r df IH]; intros acc Hacc; simpl; [done|].
  by apply IH, group_add_sorted.
Qed.

Lemma key_sorted_NoDup gs : key_sorted kcmp gs → NoDup gs.*1.
Proof.
  unfold key_sorted. induction 1 as [|k ks _ IH Hall]; constructor; [|done].
  intros Hin. eapply Forall_forall in Hall; [|done].
  assert (kcmp k k = Eq) by by apply kcmp_eq. congruence.
Qed.

(** One output row per distinct key of the table. *)
Lemma groupby_sum_length (df : table) :
  length (groupby_sum kcmp key df) = length (remove_dups (key <$> df)).
Proof.
  rewrite <- (length_fmap fst). apply Permutation_length, NoDup_Permutation.
  - apply key_sorted_NoDup, groupby_sum_sorted.
  - apply NoDup_remove_dups.
  - intros k. by rewrite groupby_sum_keys, elem_of_remove_dups.
Qed.

Lemma group_total_NoDup k s gs :
  NoDup gs.*1 → (k, s) ∈ gs → group_total kcmp k gs = s.
Proof.
  induction gs as [|[k' s'] gs IH]; [by intros _ ?%elem_of_nil|].
  rewrite fmap_cons. simpl fst. intros [Hk Hnd]%NoDup_cons Hin.
  rewrite group_total_cons. apply elem_of_cons in Hin as [[= -> ->]|Hin].
  - rewrite decide_True by done.
    enough (group_total kcmp k' gs = 0) by lia.
    clear IH Hnd. induction gs as [|[k2 s2] gs IH]; [done|].
    rewrite group_total_cons. rewrite fmap_cons, not_elem_of_cons in Hk.
    destruct Hk as [Hne Hk]. rewrite decide_False by done. by rewrite IH.
  - rewrite decide_False, IH by
      (try done; intros ->; apply Hk;
       by apply (list_elem_of_fmap_2 fst) in Hin).
    lia.
Qed.

(** Each output row carries the sum over the rows of its group. *)
Lemma groupby_sum_elem k s (df : table) :
  (k, s) ∈ groupby_sum kcmp key df →
  s = totalSpending (filter (λ r, key r = k) df).
Proof.
  intros Hin. rewrite <- groupby_sum_total. symmetry.
  apply group_total_NoDup; [|done].
  apply key_sorted_NoDup, groupby_sum_sorted.
Qed.

End groupby_facts.

(** ** The monthly trend *)

Lemma ym_compare_eq a b : ym_compare a b = Eq ↔ a = b.
Proof.
  destruct a as [y m], b as [y' m']. unfold ym_compare. simpl.
  destruct (Z.compare_spec y y') as [->| |]; [|split; [done|intros [=]; lia]..].
  rewrite Z.compare_eq_iff. split; [by intros -> | by intros [= ->]].
Qed.

Lemma ym_compare_gt_lt a b : ym_compare a b = Gt → ym_compare b a = Lt.
Proof.
  destruct a as [y m], b as [y' m']. unfold ym_compare. simpl.
  destruct (Z.compare_spec y y'), (Z.compare_spec y' y);
    try done; try lia.
  intros ?%Z.compare_gt_iff. by apply Z.compare_lt_iff.
Qed.

Lemma ym_compare_trans a b c :
  ym_compare a b = Lt → ym_compare b c = Lt → ym_compare a c = Lt.
Proof.
  destruct a as [y m], b as [y' m'], c as [y'' m'']. unfold ym_compare. simpl.
  destruct (Z.compare_spec y y'), (Z.compare_spec y' y''),
    (Z.compare_spec y y''); try done; try lia.
  rewrite !Z.compare_lt_iff. lia.
Qed.

(** What lines 133-134 compute: one point per distinct [(year, month)] pair
    of the whole table [df], whatever years are selected. *)
Lemma monthlyTrend_length (df : table) (selected_year : list Z) :
  length (monthlyTrend df selected_year)
  = length (remove_dups (ym_key <$> df)).
Proof.
  unfold monthlyTrend, map_months. rewrite length_fmap.
  apply groupby_sum_length.
  - apply ym_compare_eq.
  - apply ym_compare_gt_lt.
  - apply ym_compare_trans.
Qed.

(** Each point carries the sum of [amount] over the rows of [df] of its
    year and month, and the display name of that month. *)
Lemma monthlyTrend_elem (df : table) (selected_year : list Z) (p : trend_row) :
  p ∈ monthlyTrend df selected_year →
  ∃ m, t_month p = dict_get months m
       ∧ (t_year p, m) ∈ ym_key <$> df
       ∧ t_amount p
         = totalSpending (filter (λ r, ym_key r = (t_year p, m)) df).
Proof.
  unfold monthlyTrend, map_months.
  intros [[[y m] s] [-> Hin]]%list_elem_of_fmap. exists m. simpl.
  split_and!; [done| |].
  - apply (groupby_sum_keys ym_compare ym_key ym_compare_eq).
    by apply (list_elem_of_fmap_2 fst) in Hin.
  - by eapply groupby_sum_elem;
      eauto using ym_compare_eq, ym_compare_gt_lt, ym_compare_trans.
Qed.

Lemma monthlyTrend_any_years (df : table) (ys ys' : list Z) :
  monthlyTrend df ys = monthlyTrend df ys'.
Proof. done. Qed.

Example categoryBreakdown_sample :
  categoryBreakdown (sample_df ++ [row_electric])
  = [("Bills", 8500); ("Home", 1000); ("Transport", 300)].
Proof. by vm_compute. Qed.

(** C1. On a table with one expense in 2023 and one in 2024, with only 2024
    selected, the trend still has the point of January 2023: two points,
    where the year-filtered table has a single [(year, month)] pair. *)
Theorem monthlyTrend_ignores_selected_year :
  monthlyTrend [row_rent; row_electric] [2024]
  = [TrendRow 2023 (Some "January") 1000; TrendRow 2024 (Some "March") 4250]
  ∧ remove_dups (ym_key <$> filterByYears [row_rent; row_electric] [2024])
    = [(2024, 3)]
  ∧ length (monthlyTrend [row_rent; row_electric] [2024])
    ≠ length (remove_dups
                (ym_key <$> filterByYears [row_rent; row_electric] [2024])).
Proof. by vm_compute. Qed.

(** ** Data access *)

Lemma get_connection_eq (drv : driver) (w : world) :
  get_connection drv w
  = match connect_fails drv (connects w) with
    | None =>
        (Ret (Connection (connects w) []),
         set_stdout (stdout w ++ ["✅ Connection successful!"])
           (set_connects (S (connects w)) w))
    | Some (PyodbcError msg) =>
        (Raise (PyodbcError msg),
         set_stdout (stdout w ++ ["❌ Connection failed: " +:+ msg])
           (set_connects (S (connects w)) w))
    | Some (OtherError msg) =>
        (Raise (OtherError msg), set_connects (S (connects w)) w)
    end.
Proof.
  unfold get_connection, try_except_pyodbc, pyodbc_connect.
  unfold mbind, script_bind, bind.
  by destruct (connect_fails drv (connects w)) as [[msg|msg]|].
Qed.

Example get_connection_down :
  get_connection drv_down world_empty
  = (Raise (PyodbcError "login timeout expired"),
     World [] None ∅ ["❌ Connection failed: login timeout expired"] 1 []).
Proof. reflexivity. Qed.

Example get_connection_up :
  get_connection drv_ok world_empty
  = (Ret (Connection 0 []),
     World [] None ∅ ["✅ Connection successful!"] 1 []).
Proof. reflexivity. Qed.

(** C7. [get_connection] makes one connection attempt. When the driver
    raises a [pyodbc.Error], the failure is printed and the same exception
    propagates; when the driver answers, its connection is returned. In
    every case the attempt counter advances by exactly one (no retry) and
    the store and the cache are untouched. *)
Theorem get_connection_spec (drv : driver) (w : world) :
  match connect_fails drv (connects w) with
  | Some (PyodbcError msg) =>
      ∃ w', get_connection drv w = (Raise (PyodbcError msg), w')
            ∧ stdout w' = stdout w ++ ["❌ Connection failed: " +:+ msg]
  | Some e => ∃ w', get_connection drv w = (Raise e, w')
  | None =>
      ∃ w', get_connection drv w = (Ret (Connection (connects w) []), w')
  end
  ∧ connects (get_connection drv w).2 = S (connects w)
  ∧ store (get_connection drv w).2 = store w
  ∧ cache (get_connection drv w).2 = cache w.
Proof.
  rewrite get_connection_eq.
  destruct (connect_fails drv (connects w)) as [[msg|msg]|]; eauto 10.
Qed.

(** ** The submit handler *)

(** The two ways a submission ends. *)
Lemma on_submit_cases (drv : driver) (d : date) (v : Z) (c s : string)
    (w : world) :
  (submit_ok drv w
   ∧ ∃ w', on_submit drv d v c s w = (Rerun, w')
           ∧ store w' = store w ++ [Expense d v c s]
           ∧ cache w' = None
           ∧ connects w' = S (connects w)
           ∧ page w' = page w ++ [StSuccess "Expense added succesfully"])
  ∨ (¬ submit_ok drv w
     ∧ ∃ err w', on_submit drv d v c s w = (Raise err, w')
                 ∧ store w' = store w
                 ∧ cache w' = cache w
                 ∧ session_state w' = session_state w
                 ∧ connects w' = S (connects w)
                 ∧ page w' = page w).
Proof.
  unfold submit_ok, on_submit, cursor_execute, conn_commit.
  cbv [mbind script_bind bind]. rewrite get_connection_eq.
  destruct (connect_fails drv (connects w)) as [[msg|msg]|] eqn:Hc.
  1, 2: right; split; [by intros [? _]|];
    eexists _, _; split_and!; reflexivity.
  cbv [conn_id uncommitted].
  destruct (execute_fails drv (connects w)) as [err|] eqn:He;
    cbv [ret raise].
  { right. split; [by intros (_ & ? & _)|].
    eexists _, _; split_and!; reflexivity. }
  destruct (commit_fails drv (connects w)) as [err|] eqn:Hm.
  { right. split; [by intros (_ & _ & ?)|].
    eexists _, _; split_and!; reflexivity. }
  left. split; [done|].
  cbv [conn_close ret show st_cache_data_clear reset_form del_keys st_rerun
       mbind script_bind bind].
  eexists. split_and!; reflexivity.
Qed.

Example on_submit_first_record :
  on_submit drv_ok (Date 2024 3 5) 4250 "Bills" "electric" world_empty
  = (Rerun,
     World [rec_electric] None ∅ ["✅ Connection successful!"] 1
       [StSuccess "Expense added succesfully"]).
Proof. reflexivity. Qed.

Example on_submit_commit_fails :
  on_submit drv_commit_fails (Date 2024 3 5) 4250 "Bills" "electric"
    world_empty
  = (Raise (PyodbcError "deadlock"),
     World [] None ∅ ["✅ Connection successful!"] 1 []).
Proof. reflexivity. Qed.

(** C8. A submission is all or nothing, by the driver's answers. When the
    driver answers the connect, the execute and the commit, the handler ends
    with the rerun, the store holds exactly the submitted record more and
    the cache is empty. When one of the three calls fails, the handler ends
    with the exception of the first call that failed, and the store and the
    cache are as before. *)
Theorem on_submit_atomic (drv : driver) (d : date) (v : Z) (c s : string)
    (w : world) :
  match submit_failure drv w with
  | None =>
      ∃ w', on_submit drv d v c s w = (Rerun, w')
            ∧ store w' = store w ++ [Expense d v c s]
            ∧ cache w' = None
  | Some err =>
      ∃ w', on_submit drv d v c s w = (Raise err, w')
            ∧ store w' = store w
            ∧ cache w' = cache w
  end.
Proof.
  unfold submit_failure, on_submit, cursor_execute, conn_commit.
  cbv [mbind script_bind bind]. rewrite get_connection_eq.
  destruct (connect_fails drv (connects w)) as [[msg|msg]|].
  1, 2: eexists; split_and!; reflexivity.
  cbv [conn_id uncommitted].
  destruct (execute_fails drv (connects w)) as [err|]; cbv [ret raise].
  { eexists; split_and!; reflexivity. }
  destruct (commit_fails drv (connects w)) as [err|].
  { eexists; split_and!; reflexivity. }
  cbv [conn_close ret show st_cache_data_clear reset_form del_keys st_rerun
       mbind script_bind bind].
  eexists. split_and!; reflexivity.
Qed.

(** C9. A submission that ends with an exception leaves the cache, the
    session state and the page as they were: the success message, the cache
    clear and the form reset have not run. *)
Theorem failed_submit_frame (drv : driver) (d : date) (v : Z) (c s : string)
    (w w' : world) (err : exn) :
  on_submit drv d v c s w = (Raise err, w') →
  cache w' = cache w
  ∧ session_state w' = session_state w
  ∧ page w' = page w.
Proof.
  intros Hrun.
  destruct (on_submit_cases drv d v c s w)
    as [[_ (w1 & Heq & _)] | [_ (err1 & w1 & Heq & _ & ? & ? & _ & ?)]];
    rewrite Hrun in Heq; [done|].
  by injection Heq as -> ->.
Qed.

Lemma failed_submit_frame_witness :
  on_submit drv_commit_fails (Date 2024 3 5) 4250 "Bills" "electric"
    world_cached
  = (Raise (PyodbcError "deadlock"),
     set_stdout ["✅ Connection successful!"] (set_connects 4 world_cached))
  ∧ cache (set_stdout ["✅ Connection successful!"]
             (set_connects 4 world_cached)) = cache world_cached
  ∧ session_state (set_stdout ["✅ Connection successful!"]
                     (set_connects 4 world_cached))
    = session_state world_cached
  ∧ page (set_stdout ["✅ Connection successful!"]
            (set_connects 4 world_cached)) = page world_cached.
Proof.
  split; [reflexivity|].
  apply (failed_submit_frame drv_commit_fails (Date 2024 3 5) 4250 "Bills"
           "electric" world_cached _ (PyodbcError "deadlock")).
  reflexivity.
Defined.

(** ** Loading *)

Lemma load_data_cached (drv : driver) (w : world) (df : table) :
  cache w = Some df → load_data drv w = (Ret df, w).
Proof. unfold load_data. by intros ->. Qed.

Lemma load_data_fresh (drv : driver) (w : world) :
  cache w = None → connect_fails drv (connects w) = None →
  load_data drv w
  = (Ret (derive <$> store w),
     set_cache (Some (derive <$> store w))
       (set_stdout (stdout w ++ ["✅ Connection successful!"])
          (set_connects (S (connects w)) w))).
Proof.
  intros Hcache Hconn. unfold load_data, load_data_body. rewrite Hcache.
  unfold mbind, script_bind, bind. rewrite get_connection_eq, Hconn.
  unfold read_sql. cbn. by rewrite app_nil_r.
Qed.

Lemma four_columns_derive (e : expense) : four_columns (derive e) = e.
Proof. by destruct e. Qed.

Lemma filter_matches_derive (e : expense) (st : list expense) :
  filter (matches e) (derive <$> st) = derive <$> filter (λ x, x = e) st.
Proof.
  induction st as [|x st IH]; [done|].
  rewrite fmap_cons, !filter_cons. destruct (decide (x = e)) as [->|Hne].
  - rewrite decide_True by apply four_columns_derive.
    by rewrite fmap_cons, IH.
  - rewrite decide_False; [done|].
    unfold matches. by rewrite four_columns_derive.
Qed.

(** C5, as the code has it. When the driver answers, submitting the record
    (2024-03-05, 42.50, "Bills", "electric") and loading the table again
    yields one more row showing those four fields than the store held such
    records before (exactly one when it held none), and every such row has
    year 2024 and month 3. *)
Theorem insert_then_reload (drv : driver) (w : world) :
  submit_ok drv w → connect_fails drv (S (connects w)) = None →
  ∃ w1 w2 df,
    on_submit drv (Date 2024 3 5) 4250 "Bills" "electric" w = (Rerun, w1)
    ∧ load_data drv w1 = (Ret df, w2)
    ∧ length (filter (matches rec_electric) df)
      = S (length (filter (λ e, e = rec_electric) (store w)))
    ∧ (rec_electric ∉ store w →
       length (filter (matches rec_electric) df) = 1%nat)
    ∧ (∀ r, r ∈ df → matches rec_electric r → year r = 2024 ∧ month r = 3).
Proof.
  intros Hok Hconn.
  destruct (on_submit_cases drv (Date 2024 3 5) 4250 "Bills" "electric" w)
    as [[_ (w1 & Hrun & Hst & Hcache & Hn & _)] | [? _]]; [|done].
  assert (Hload := load_data_fresh drv w1 Hcache).
  rewrite Hn in Hload. specialize (Hload Hconn).
  eexists w1, _, (derive <$> store w1). rewrite Hst.
  assert (length (filter (matches rec_electric)
                    (derive <$> store w ++ [Expense (Date 2024 3 5) 4250 "Bills" "electric"]))
          = S (length (filter (λ e, e = rec_electric) (store w)))) as Hlen.
  { rewrite filter_matches_derive, length_fmap, filter_app, length_app.
    change (Expense _ _ _ _) with rec_electric.
    rewrite filter_cons_True by done. simpl. lia. }
  split_and!; [done | rewrite <- Hst; exact Hload | done | |].
  - intros Hnone. rewrite Hlen. f_equal.
    destruct (filter _ (store w)) as [|x l] eqn:Hf; [done|].
    assert (x ∈ filter (λ e, e = rec_electric) (store w)) as Hx
      by (rewrite Hf; left).
    apply list_elem_of_filter in Hx as [-> ?]. done.
  - intros r [e [-> _]]%list_elem_of_fmap. unfold matches.
    rewrite four_columns_derive. by intros ->.
Qed.

Lemma insert_then_reload_witness :
  ∃ w1 w2 df,
    on_submit drv_ok (Date 2024 3 5) 4250 "Bills" "electric" world_cached
    = (Rerun, w1)
    ∧ load_data drv_ok w1 = (Ret df, w2)
    ∧ length (filter (matches rec_electric) df)
      = S (length (filter (λ e, e = rec_electric) (store world_cached)))
    ∧ (rec_electric ∉ store world_cached →
       length (filter (matches rec_electric) df) = 1%nat)
    ∧ (∀ r, r ∈ df → matches rec_electric r → year r = 2024 ∧ month r = 3).
Proof.
  apply (insert_then_reload drv_ok world_cached); [|reflexivity].
  repeat split; reflexivity.
Defined.

(** C5, as stated, fails on a store that already holds the record: after
    the insert and the reload two rows show the four fields. *)
Lemma roundtrip_exactly_one_fails :
  on_submit drv_ok (Date 2024 3 5) 4250 "Bills" "electric" world_one_electric
  = (Rerun,
     World [rec_electric; rec_electric] None ∅ ["✅ Connection successful!"] 1
       [StSuccess "Expense added succesfully"])
  ∧ load_data drv_ok
      (World [rec_electric; rec_electric] None ∅
         ["✅ Connection successful!"] 1
         [StSuccess "Expense added succesfully"])
    = (Ret [row_electric; row_electric],
       World [rec_electric; rec_electric]
         (Some [row_electric; row_electric]) ∅
         ["✅ Connection successful!"; "✅ Connection successful!"] 2
         [StSuccess "Expense added succesfully"])
  ∧ filter (matches rec_electric) [row_electric; row_electric]
    = [row_electric; row_electric]
  ∧ length (filter (matches rec_electric) [row_electric; row_electric])
    ≠ 1%nat.
Proof. split_and!; by vm_compute. Qed.

(** ** One run of the script *)

Lemma setdefault_frame (key : string) (v : sval) (w : world) :
  ∃ ss, setdefault key v w = (Ret (), set_session_state ss w).
Proof.
  unfold setdefault. case_decide; [|by eexists].
  exists (session_state w). by destruct w.
Qed.

Lemma init_session_state_frame (today : date) (w : world) :
  ∃ ss, init_session_state today w = (Ret (), set_session_state ss w).
Proof.
  unfold init_session_state. unfold mbind, script_bind, bind.
  repeat match goal with
  | |- context [setdefault ?k ?v ?w0] =>
      destruct (setdefault_frame k v w0) as [? ->]
  end.
  by eexists.
Qed.

Lemma expenses_tab_idle (drv : driver) (f : form_input) (w : world) :
  submitted f = false →
  ∃ evs, expenses_tab drv f w = (Ret (), set_page (page w ++ evs) w)
         ∧ Forall (λ ev, is_report ev = false) evs.
Proof.
  intros Hf. destruct w as [st c ss out n p]. unfold expenses_tab.
  rewrite Hf.
  cbv [mbind script_bind bind show ret set_page
       store cache session_state stdout connects page].
  eexists. split.
  - rewrite <- !app_assoc. reflexivity.
  - repeat constructor.
Qed.

Lemma analysis_tab_empty (sel : selection) (w : world) :
  analysis_tab [] sel w
  = (Ret (),
     set_page
       (page w ++
        [StMarkdown
           "<h2 style='text-align: Left; color: green;'>Analysis</h2>";
         StWarning "No data available. Please add expenses first."]) w).
Proof.
  unfold analysis_tab. rewrite show_bind, decide_True by done.
  unfold show, set_page. cbn. by rewrite <- app_assoc.
Qed.

(** C6. With an empty store the load succeeds and returns the empty table;
    on the empty table the analysis tab shows its heading and the "no data"
    warning and nothing else; and a whole run of the script (without a
    submission) ends normally, on that warning, having put no metric, chart
    or listing on the page. *)
Theorem empty_store_no_data (drv : driver) (today : date) (f : form_input)
    (sel : selection) (w : world) :
  store w = [] → cache w = None → connect_fails drv (connects w) = None →
  submitted f = false →
  (∃ w1, load_data drv w = (Ret [], w1))
  ∧ (∀ w1, analysis_tab [] sel w1
           = (Ret (),
              set_page
                (page w1 ++
                 [StMarkdown
                    "<h2 style='text-align: Left; color: green;'>Analysis</h2>";
                  StWarning "No data available. Please add expenses first."])
                w1))
  ∧ (∃ evs w', main drv today f sel w = (Ret (), w')
               ∧ page w' = page w ++ evs
               ∧ last evs
                 = Some (StWarning
                           "No data available. Please add expenses first.")
               ∧ Forall (λ ev, is_report ev = false) evs).
Proof.
  intros Hst Hcache Hconn Hf. split_and!.
  - rewrite (load_data_fresh drv w Hcache Hconn), Hst. by eexists.
  - intros w1. apply analysis_tab_empty.
  - destruct w as [st c ss0 out n p]. simpl in Hst, Hcache, Hconn. subst.
    unfold main. rewrite show_bind_world. cbv [mbind script_bind bind].
    match goal with |- context [init_session_state today ?w0] =>
      destruct (init_session_state_frame today w0) as [ss ->] end.
    cbv [set_session_state store cache session_state stdout connects page].
    match goal with |- context [expenses_tab drv f ?w0] =>
      destruct (expenses_tab_idle drv f w0 Hf) as (evs & -> & Hevs) end.
    cbv [set_page store cache session_state stdout connects page].
    rewrite load_data_fresh by done.
    cbv [set_cache set_stdout set_connects
         store cache session_state stdout connects page].
    change (derive <$> []) with (@nil row). rewrite analysis_tab_empty.
    cbv [set_page store cache session_state stdout connects page].
    eexists _, _. split; [reflexivity|]. cbv [page]. split_and!.
    + rewrite <- !app_assoc. reflexivity.
    + by rewrite !last_app.
    + rewrite !Forall_app. repeat split; try done; by repeat constructor.
Qed.

Lemma empty_store_no_data_witness :
  (∃ w1, load_data drv_ok world_empty = (Ret [], w1))
  ∧ (∀ w1, analysis_tab [] (Selection [] [] "All") w1
           = (Ret (),
              set_page
                (page w1 ++
                 [StMarkdown
                    "<h2 style='text-align: Left; color: green;'>Analysis</h2>";
                  StWarning "No data available. Please add expenses first."])
                w1))
  ∧ (∃ evs w',
       main drv_ok (Date 2024 3 5)
         (FormInput (Date 2024 3 5) 0 "Grocery Shopping" "" false)
         (Selection [] [] "All") world_empty = (Ret (), w')
       ∧ page w' = page world_empty ++ evs
       ∧ last evs
         = Some (StWarning
                   "No data available. Please add expenses first.")
       ∧ Forall (λ ev, is_report ev = false) evs).
Proof.
  apply (empty_store_no_data drv_ok (Date 2024 3 5)
           (FormInput (Date 2024 3 5) 0 "Grocery Shopping" "" false)
           (Selection [] [] "All") world_empty); reflexivity.
Defined.

(** ** The session state of the form *)

Lemma del_keys_lookup (keys : list string) (ss : gmap string sval) (k : string) :
  foldl (λ ss key, if decide (is_Some (ss !! key)) then delete key ss else ss)
    ss keys !! k
  = if decide (k ∈ keys) then None else ss !! k.
Proof.
  revert ss. induction keys as [|key keys IH]; intros ss; cbn [foldl].
  { case_decide as Hk; [by apply elem_of_nil in Hk | done]. }
  rewrite IH.
  assert ((if decide (is_Some (ss !! key)) then delete key ss else ss)
          = delete key ss) as ->.
  { destruct (decide (is_Some (ss !! key))) as [Hk|Hk]; [done|].
    symmetry. apply delete_id. by apply eq_None_not_Some. }
  destruct (decide (k ∈ keys)) as [Hin|Hin].
  - by rewrite decide_True by (by right).
  - destruct (decide (k = key)) as [->|Hne].
    + rewrite decide_True by left. apply lookup_delete_eq.
    + rewrite decide_False by (by intros [?|?]%elem_of_cons).
      by apply lookup_delete_ne.
Qed.

(** [reset_form] removes the five form keys from the session state, keeps
    every other key, touches nothing else, and ends the run with a rerun. *)
Theorem reset_form_spec (w : world) :
  ∃ w', reset_form w = (Rerun, w')
        ∧ (∀ k, session_state w' !! k
                = if decide (k ∈ form_keys) then None
                  else session_state w !! k)
        ∧ store w' = store w ∧ cache w' = cache w
        ∧ stdout w' = stdout w ∧ connects w' = connects w
        ∧ page w' = page w.
Proof.
  eexists. split; [reflexivity|]. split_and!; try reflexivity.
  intros k. apply del_keys_lookup.
Qed.

Lemma setdefault_union (key : string) (v : sval) (w : world) :
  setdefault key v w
  = (Ret (), set_session_state (session_state w ∪ {[key := v]}) w).
Proof.
  unfold setdefault. destruct w as [st c ss out n p]. simpl.
  destruct (decide (is_Some (ss !! key))) as [[x Hx]|Hk].
  - do 2 f_equal. unfold set_session_state. simpl. f_equal.
    apply map_eq. intros k. destruct (decide (k = key)) as [->|Hne].
    + by rewrite lookup_union_l' by (by rewrite Hx).
    + by rewrite lookup_union_l by (by apply lookup_singleton_ne).
  - do 2 f_equal. apply insert_union_singleton_r.
    by apply eq_None_not_Some.
Qed.

Lemma form_defaults_union (today : date) :
  form_defaults today
  = {["selected_date" := VDate today]} ∪ {["value" := VFloat 0]}
    ∪ {["spending_type" := VStr "Recurring"]}
    ∪ {["category" := VStr "Grocery Shopping"]}
    ∪ {["comments" := VStr ""]}.
Proof.
  unfold form_defaults. rewrite <- !(assoc_L (∪)).
  by rewrite !insert_union_singleton_l.
Qed.

Lemma form_defaults_lookup (today : date) (k : string) :
  is_Some (form_defaults today !! k) ↔ k ∈ form_keys.
Proof.
  rewrite <- elem_of_dom. unfold form_defaults, form_keys.
  rewrite !dom_insert_L, dom_singleton_L. set_solver.
Qed.

(** Lines 51-60 keep every value already in the session state and give
    the form keys that are missing their defaults. *)
Theorem init_session_state_spec (today : date) (w : world) :
  init_session_state today w
  = (Ret (),
     set_session_state (session_state w ∪ form_defaults today) w).
Proof.
  unfold init_session_state. cbv [mbind script_bind bind].
  rewrite !setdefault_union. destruct w as [st c ss out n p].
  cbv [set_session_state store cache session_state stdout connects page].
  by rewrite form_defaults_union, !(assoc_L (∪)).
Qed.

(** After [reset_form] the next run's initialisation puts every form key
    back to its default and leaves the other session keys alone. *)
Theorem reset_form_then_init (today : date) (w : world) :
  ∃ w1 w2, reset_form w = (Rerun, w1)
           ∧ init_session_state today w1 = (Ret (), w2)
           ∧ session_state w2 = form_defaults today ∪ session_state w
           ∧ store w2 = store w ∧ cache w2 = cache w.
Proof.
  destruct (reset_form_spec w) as (w1 & Hreset & Hss & Hst & Hc & _).
  exists w1. eexists. split; [done|].
  rewrite init_session_state_spec. split; [reflexivity|].
  split; [|by destruct w1]. destruct w1 as [st1 c1 ss1 out1 n1 p1].
  simpl in *. apply map_eq. intros k. rewrite !lookup_union, Hss.
  destruct (decide (k ∈ form_keys)) as [Hk|Hk].
  - apply (form_defaults_lookup today) in Hk as [v ->].
    by rewrite (left_id_L None _), union_Some_l.
  - assert (form_defaults today !! k = None) as ->.
    { apply eq_None_not_Some. by rewrite form_defaults_lookup. }
    by rewrite (left_id_L None _), (right_id_L None _).
Qed.

(** A successful submission clears the five form keys of the session state
    (and only those), after one connection attempt and one success
    message. *)
Theorem on_submit_success_resets_form (drv : driver) (d : date) (v : Z)
    (c s : string) (w : world) :
  submit_ok drv w →
  ∃ w', on_submit drv d v c s w = (Rerun, w')
        ∧ (∀ k, session_state w' !! k
                = if decide (k ∈ form_keys) then None
                  else session_state w !! k)
        ∧ stdout w' = stdout w ++ ["✅ Connection successful!"]
        ∧ page w' = page w ++ [StSuccess "Expense added succesfully"]
        ∧ connects w' = S (connects w).
Proof.
  intros (Hc & He & Hm).
  unfold on_submit, cursor_execute, conn_commit.
  cbv [mbind script_bind bind]. rewrite get_connection_eq, Hc.
  cbv [conn_id uncommitted]. rewrite He. cbv [ret]. rewrite Hm.
  cbv [conn_close ret show st_cache_data_clear reset_form del_keys st_rerun
       mbind script_bind bind].
  eexists. split; [reflexivity|]. split_and!; try reflexivity.
  intros k. apply del_keys_lookup.
Qed.

Lemma on_submit_success_resets_form_witness :
  ∃ w', on_submit drv_ok (Date 2024 3 5) 4250 "Bills" "electric" world_cached
        = (Rerun, w')
        ∧ (∀ k, session_state w' !! k
                = if decide (k ∈ form_keys) then None
                  else session_state world_cached !! k)
        ∧ stdout w' = stdout world_cached ++ ["✅ Connection successful!"]
        ∧ page w'
          = page world_cached ++ [StSuccess "Expense added succesfully"]
        ∧ connects w' = S (connects world_cached).
Proof.
  apply (on_submit_success_resets_form drv_ok (Date 2024 3 5) 4250 "Bills"
           "electric" world_cached).
  repeat split; reflexivity.
Defined.

(** ** The cached table *)

(** A first load reads the store: the table has one row per stored record,
    in store order, with the record's four columns unchanged and [year] and
    [month] taken from its date; the table is cached and one connection
    attempt is made. *)
Theorem load_data_fresh_rows (drv : driver) (w : world) :
  cache w = None → connect_fails drv (connects w) = None →
  ∃ df w', load_data drv w = (Ret df, w')
           ∧ four_columns <$> df = store w
           ∧ Forall (λ r, year r = d_year (r_date r)
                          ∧ month r = d_month (r_date r)) df
           ∧ cache w' = Some df
           ∧ store w' = store w
           ∧ connects w' = S (connects w).
Proof.
  intros Hcache Hconn. rewrite (load_data_fresh drv w Hcache Hconn).
  eexists _, _. split; [reflexivity|]. split_and!; try reflexivity.
  - rewrite <- list_fmap_compose. apply list_eq. intros i.
    rewrite list_lookup_fmap. destruct (store w !! i) as [e|]; [|done].
    simpl. by rewrite four_columns_derive.
  - apply Forall_fmap, Forall_true. by intros e.
Qed.

Lemma load_data_fresh_rows_witness :
  ∃ df w', load_data drv_ok (set_cache None world_cached) = (Ret df, w')
           ∧ four_columns <$> df = store (set_cache None world_cached)
           ∧ Forall (λ r, year r = d_year (r_date r)
                          ∧ month r = d_month (r_date r)) df
           ∧ cache w' = Some df
           ∧ store w' = store (set_cache None world_cached)
           ∧ connects w' = S (connects (set_cache None world_cached)).
Proof.
  apply (load_data_fresh_rows drv_ok (set_cache None world_cached));
    reflexivity.
Defined.

(** Once loaded, the table is served from the cache: a later load returns
    the same table without a connection attempt, whatever the store holds
    by then and whatever the driver would answer. *)
Theorem load_data_serves_cache (drv drv' : driver) (w : world)
    (st' : list expense) :
  cache w = None → connect_fails drv (connects w) = None →
  ∃ df w1, load_data drv w = (Ret df, w1)
           ∧ df = derive <$> store w
           ∧ load_data drv' (set_store st' w1) = (Ret df, set_store st' w1).
Proof.
  intros Hcache Hconn. rewrite (load_data_fresh drv w Hcache Hconn).
  eexists _, _. split; [reflexivity|]. split; [reflexivity|].
  by apply load_data_cached.
Qed.

Lemma load_data_serves_cache_witness :
  ∃ df w1, load_data drv_ok (set_cache None world_cached) = (Ret df, w1)
           ∧ df = derive <$> store (set_cache None world_cached)
           ∧ load_data drv_down (set_store [rec_rent; rec_bus] w1)
             = (Ret df, set_store [rec_rent; rec_bus] w1).
Proof.
  apply (load_data_serves_cache drv_ok drv_down
           (set_cache None world_cached) [rec_rent; rec_bus]); reflexivity.
Defined.

(** When nothing is cached and the connection attempt fails, the load
    raises the driver's exception, caches nothing and leaves the store and
    the page as they were. *)
Theorem load_data_connection_failure (drv : driver) (w : world) (e : exn) :
  cache w = None → connect_fails drv (connects w) = Some e →
  ∃ w', load_data drv w = (Raise e, w')
        ∧ cache w' = None ∧ store w' = store w ∧ page w' = page w
        ∧ connects w' = S (connects w).
Proof.
  intros Hcache Hconn. unfold load_data, load_data_body. rewrite Hcache.
  cbv [mbind script_bind bind]. rewrite get_connection_eq, Hconn.
  destruct e as [msg|msg]; eexists; (split; [reflexivity|]);
    by split_and!.
Qed.

Lemma load_data_connection_failure_witness :
  ∃ w', load_data drv_down world_empty
        = (Raise (PyodbcError "login timeout expired"), w')
        ∧ cache w' = None ∧ store w' = store world_empty
        ∧ page w' = page world_empty
        ∧ connects w' = S (connects world_empty).
Proof.
  apply (load_data_connection_failure drv_down world_empty); reflexivity.
Defined.

(** ** Grouped sums, continued *)

Lemma string_compare_refl (s : string) : String.compare s s = Eq.
Proof.
  induction s as [|a s IH]; [done|]. simpl.
  unfold Ascii.compare. by rewrite N.compare_refl.
Qed.

Lemma string_compare_eq (a b : string) : String.compare a b = Eq ↔ a = b.
Proof.
  split; [apply String.compare_eq_iff | intros ->; apply string_compare_refl].
Qed.

Lemma string_compare_gt_lt (a b : string) :
  String.compare a b = Gt → String.compare b a = Lt.
Proof. rewrite String.compare_antisym. by destruct (String.compare b a). Qed.

Lemma string_compare_trans (a b c : string) :
  String.compare a b = Lt → String.compare b c = Lt →
  String.compare a c = Lt.
Proof.
  revert b c. induction a as [|x a IH]; intros [|y b] [|z c]; simpl;
    try done.
  unfold Ascii.compare.
  destruct (N.compare_spec (Ascii.N_of_ascii x) (Ascii.N_of_ascii y)) as [Hxy|Hxy|Hxy];
    [|clear IH|done];
    (destruct (N.compare_spec (Ascii.N_of_ascii y) (Ascii.N_of_ascii z))
       as [Hyz|Hyz|Hyz]; [| |done]); intros Hab Hbc.
  - rewrite Hxy, Hyz, N.compare_refl. by eapply IH.
  - rewrite Hxy. by apply N.compare_lt_iff in Hyz as ->.
  - rewrite <- Hyz. by apply N.compare_lt_iff in Hxy as ->.
  - assert (Ascii.N_of_ascii x < Ascii.N_of_ascii z)%N as Hxz by lia.
    by apply N.compare_lt_iff in Hxz as ->.
Qed.

(** The pie data has one slice per distinct category of the filtered rows,
    in ascending category order. *)
Theorem categoryBreakdown_slices (rows : table) :
  key_sorted String.compare (categoryBreakdown rows)
  ∧ NoDup (categoryBreakdown rows).*1
  ∧ (∀ c, c ∈ (categoryBreakdown rows).*1 ↔ c ∈ category <$> rows)
  ∧ length (categoryBreakdown rows)
    = length (remove_dups (category <$> rows)).
Proof.
  unfold categoryBreakdown.
  assert (key_sorted String.compare
            (groupby_sum String.compare category rows)) as Hsorted.
  { apply groupby_sum_sorted.
    - apply string_compare_eq.
    - apply string_compare_gt_lt.
    - apply string_compare_trans. }
  split_and!.
  - exact Hsorted.
  - apply (key_sorted_NoDup String.compare string_compare_eq), Hsorted.
  - intros c. apply groupby_sum_keys, string_compare_eq.
  - apply groupby_sum_length.
    + apply string_compare_eq.
    + apply string_compare_gt_lt.
    + apply string_compare_trans.
Qed.

(** ** The monthly trend, continued *)

Lemma dict_get_months_is_Some (m : Z) :
  is_Some (dict_get months m) ↔ 1 ≤ m ≤ 12.
Proof.
  split.
  - intros [name Hget].
    apply (dict_get_elem _ _ _ months_keys_NoDup) in Hget.
    unfold months in Hget. rewrite !elem_of_cons, elem_of_nil in Hget.
    destruct_or!; try done; simplify_eq; lia.
  - intros Hm.
    assert (m = 1 ∨ m = 2 ∨ m = 3 ∨ m = 4 ∨ m = 5 ∨ m = 6 ∨ m = 7 ∨ m = 8
            ∨ m = 9 ∨ m = 10 ∨ m = 11 ∨ m = 12) as Hcases by lia.
    destruct_or!; subst m; by eexists.
Qed.

(** What the chart receives on its axis. For a list [keys] of the
    (year, month) pairs of the whole table [df], each once and in ascending
    order, the trend has one point per key, in that order, with the year of
    the key and the display name of its month. None of this depends on the
    selected years. *)
Theorem monthlyTrend_points (df : table) (selected_year : list Z) :
  ∃ keys,
    StronglySorted (λ a b, ym_compare a b = Lt) keys
    ∧ (∀ k, k ∈ keys ↔ k ∈ ym_key <$> df)
    ∧ (λ p, (t_year p, t_month p)) <$> monthlyTrend df selected_year
      = (λ k, (k.1, dict_get months k.2)) <$> keys.
Proof.
  exists (groupby_sum ym_compare ym_key df).*1. split_and!.
  - apply groupby_sum_sorted.
    + apply ym_compare_eq.
    + apply ym_compare_gt_lt.
    + apply ym_compare_trans.
  - intros k. apply groupby_sum_keys, ym_compare_eq.
  - unfold monthlyTrend, map_months. cbv zeta.
    by rewrite <- !list_fmap_compose.
Qed.

(** On a table whose month numbers are between 1 and 12, as [dt.month]
    gives them, every point of the trend has a month name. *)
Theorem monthlyTrend_points_named (df : table) (selected_year : list Z) :
  Forall (λ r, 1 ≤ month r ≤ 12) df →
  Forall (λ p, is_Some (t_month p)) (monthlyTrend df selected_year).
Proof.
  unfold monthlyTrend, map_months. cbv zeta.
  rewrite Forall_fmap, !Forall_forall.
  intros Hvalid [[y m] s] Hin. simpl.
  apply dict_get_months_is_Some.
  assert ((y, m) ∈ ym_key <$> df) as Hk.
  { apply (groupby_sum_keys ym_compare ym_key ym_compare_eq).
    by apply (list_elem_of_fmap_2 fst) in Hin. }
  apply list_elem_of_fmap in Hk as (r & [= -> ->] & Hr). by apply Hvalid.
Qed.

Lemma monthlyTrend_points_named_witness :
  Forall (λ p, is_Some (t_month p)) (monthlyTrend sample_df [2024]).
Proof.
  apply (monthlyTrend_points_named sample_df [2024]).
  repeat constructor; simpl; lia.
Defined.

(** ** Filters, continued *)

Lemma filter_Forall_id {A} (P : A → Prop) `{!∀ x, Decision (P x)}
    (l : list A) :
  Forall P l → filter P l = l.
Proof.
  induction 1 as [|x l Hx _ IH]; [done|].
  by rewrite filter_cons_True, IH.
Qed.

Lemma month_chosen_all (m : Z) : 1 ≤ m ≤ 12 → month_chosen months.*2 m.
Proof.
  intros [name Hget]%dict_get_months_is_Some. unfold month_chosen.
  rewrite Hget. apply (dict_get_elem _ _ _ months_keys_NoDup) in Hget.
  by apply (list_elem_of_fmap_2 snd) in Hget.
Qed.

(** With every month name selected (the default of the month control) and
    the category control on "All", only the year control filters: on a
    table whose months are between 1 and 12 the pipeline returns what
    [filterByYears] returns. *)
Theorem filtered_df_default_months (df : table) (selected_year : list Z) :
  Forall (λ r, 1 ≤ month r ≤ 12) df →
  filterByMonths df months.*2 = df
  ∧ filtered_df df selected_year months.*2 "All"
    = filterByYears df selected_year.
Proof.
  intros Hvalid.
  assert (∀ rows : table, Forall (λ r, 1 ≤ month r ≤ 12) rows →
            filterByMonths rows months.*2 = rows) as Hall.
  { intros rows Hrows. rewrite filterByMonths_passes.
    apply filter_Forall_id. eapply Forall_impl; [exact Hrows|].
    intros r Hr. right. by apply month_chosen_all. }
  split; [by apply Hall|].
  unfold filtered_df. cbv zeta. unfold filterByCategory.
  rewrite decide_False by (by intros ?). apply Hall.
  rewrite filterByYears_passes. apply Forall_forall.
  intros r [_ Hr]%list_elem_of_filter.
  by eapply Forall_forall in Hvalid.
Qed.

Lemma filtered_df_default_months_witness :
  filterByMonths sample_df months.*2 = sample_df
  ∧ filtered_df sample_df [2024] months.*2 "All"
    = filterByYears sample_df [2024].
Proof.
  apply (filtered_df_default_months sample_df [2024]).
  repeat constructor; simpl; lia.
Defined.

(** The three filters can be applied in any order, and filtering an
    already filtered table again with the same selection changes nothing. *)
Theorem filters_commute_idempotent (df : table) (ys : list Z)
    (ms : list string) (c : string) :
  filterByYears (filterByMonths (filterByCategory df c) ms) ys
  = filtered_df df ys ms c
  ∧ filterByMonths (filterByCategory (filterByYears df ys) c) ms
    = filtered_df df ys ms c
  ∧ filtered_df (filtered_df df ys ms c) ys ms c = filtered_df df ys ms c.
Proof.
  rewrite !filtered_df_passes, !filterByYears_passes, !filterByMonths_passes,
    !filterByCategory_passes, !list_filter_filter.
  split_and!; apply list_filter_iff; intros r; tauto.
Qed.

(** Selecting one month name selects exactly the number that the [months]
    dict gives that name. *)
Theorem month_numbers_single (m : Z) (name : string) :
  dict_get months m = Some name → month_numbers [name] = [m].
Proof.
  intros Hget. apply (dict_get_elem _ _ _ months_keys_NoDup) in Hget.
  unfold months in Hget. rewrite !elem_of_cons, elem_of_nil in Hget.
  destruct_or!; try done; simplify_eq; by vm_compute.
Qed.

Lemma month_numbers_single_witness : month_numbers ["March"] = [3].
Proof. apply (month_numbers_single 3 "March"). reflexivity. Defined.

(** ** The filter controls *)

Lemma remove_dups_snoc `{EqDecision A} (l : list A) (x : A) :
  remove_dups (l ++ [x]) = filter (λ y, y ≠ x) (remove_dups l) ++ [x].
Proof.
  induction l as [|y l IH]; [done|].
  rewrite <- app_comm_cons. cbn [remove_dups]. rewrite IH.
  destruct (decide_rel (∈) y (l ++ [x])) as [Hin|Hin],
    (decide_rel (∈) y l) as [Hin'|Hin'].
  - done.
  - apply elem_of_app in Hin as [?|Heq%list_elem_of_singleton]; [done|].
    subst y. by rewrite filter_cons_False by (by intros ?).
  - destruct Hin. apply elem_of_app. by left.
  - rewrite filter_cons_True; [done|].
    intros ->. apply Hin, elem_of_app. right. left.
Qed.

(** [unique] keeps the first occurrence of every value, in order of first
    appearance: the head of the list comes first, followed by the distinct
    values of the tail other than the head. *)
Theorem unique_first_occurrence `{EqDecision A} (x : A) (l : list A) :
  unique (x :: l) = x :: filter (λ y, y ≠ x) (unique l)
  ∧ NoDup (unique (x :: l))
  ∧ (∀ y, y ∈ unique (x :: l) ↔ y ∈ x :: l).
Proof.
  unfold unique. split_and!.
  - rewrite reverse_cons, remove_dups_snoc, reverse_app, filter_reverse.
    done.
  - rewrite reverse_Permutation. apply NoDup_remove_dups.
  - intros y. by rewrite elem_of_reverse, elem_of_remove_dups, elem_of_reverse.
Qed.

Lemma analysis_tab_nonempty (df : table) (sel : selection) (w : world) :
  df ≠ [] →
  analysis_tab df sel w
  = (Ret (),
     set_page
       (page w ++
        [StMarkdown
           "<h2 style='text-align: Left; color: green;'>Analysis</h2>";
         StMultiselectYear "Select Year(s)"
           (merge_sort (flip Z.le) (unique (year <$> df)))
           (match year <$> df with
            | [] => []
            | y :: ys => [foldr Z.max y ys]
            end);
         StMultiselectMonth "Select Month(s)" months.*2 months.*2;
         StSelectbox "Select Category" ("All" :: unique (category <$> df));
         StMarkdown
           "<h4 style='text-align: Left; color: lightgreen;'>Total Spending</h4>";
         StMetric "Total Spending"
           (totalSpending
              (filtered_df df (selected_year sel) (selected_month sel)
                 (selected_category sel)));
         StMarkdown
           "<h4 style='text-align: Left; color: lightgreen;'>Monthly Spending Trend</h4>";
         PlotlyLine (monthlyTrend df (selected_year sel));
         StMarkdown
           "<h4 style='text-align: Left; color: lightgreen;'>Spending by Category</h4>";
         PlotlyPie
           (categoryBreakdown
              (filtered_df df (selected_year sel) (selected_month sel)
                 (selected_category sel)));
         StMarkdown
           "<h4 style='text-align: Left; color: lightgreen;'>Expenses Details</h4>";
         StDataframe
           (four_columns <$>
            filtered_df df (selected_year sel) (selected_month sel)
              (selected_category sel))]) w).
Proof.
  intros Hdf. destruct w as [st c ss out n p]. unfold analysis_tab, set_page.
  cbn [store cache session_state stdout connects page].
  rewrite show_bind_world, decide_False by done.
  rewrite !show_bind_world, show_world.
  do 2 f_equal. by rewrite <- !app_assoc.
Qed.

Lemma foldr_max_spec (y : Z) (ys : list Z) :
  foldr Z.max y ys ∈ y :: ys ∧ Forall (λ z, z ≤ foldr Z.max y ys) (y :: ys).
Proof.
  induction ys as [|x ys [IHin IHall]]; simpl.
  - split; [left | by repeat constructor].
  - apply Forall_cons in IHall as [Hy Hall]. split.
    + destruct (Z.max_spec x (foldr Z.max y ys)) as [[_ ->]|[_ ->]].
      * apply elem_of_cons in IHin as [->|?]; [left | by do 2 right].
      * right. left.
    + repeat constructor; [lia..|].
      eapply Forall_impl; [exact Hall|]. intros z ?. simpl in *. lia.
Qed.

Lemma sorted_desc_head (opts ys : list Z) (m : Z) :
  StronglySorted (flip Z.le) opts → (∀ y, y ∈ opts ↔ y ∈ ys) →
  m ∈ ys → Forall (λ z, z ≤ m) ys → head opts = Some m.
Proof.
  intros Hsorted Hopts Hin Hall. destruct opts as [|h opts].
  { apply Hopts in Hin. by apply elem_of_nil in Hin. }
  simpl. f_equal. apply StronglySorted_inv in Hsorted as [_ Hle].
  assert (h ≤ m).
  { eapply Forall_forall in Hall; [exact Hall|]. apply Hopts. left. }
  apply Hopts, elem_of_cons in Hin as [?|Hin]; [done|].
  eapply Forall_forall in Hle; [|exact Hin]. unfold flip in Hle. lia.
Qed.

(** The year control of a non-empty table offers exactly the years present
    in the table, each once, latest first, and preselects the first of
    them, the latest year; the category control offers "All" followed by
    the categories present, each once. *)
Theorem analysis_controls_spec (df : table) (sel : selection) (w : world) :
  df ≠ [] →
  ∃ years latest cats,
    StMultiselectYear "Select Year(s)" years [latest]
      ∈ page (analysis_tab df sel w).2
    ∧ StSelectbox "Select Category" ("All" :: cats)
      ∈ page (analysis_tab df sel w).2
    ∧ StronglySorted (λ a b, b < a) years
    ∧ (∀ y, y ∈ years ↔ y ∈ year <$> df)
    ∧ head years = Some latest
    ∧ Forall (λ r, year r ≤ latest) df
    ∧ NoDup cats
    ∧ (∀ c, c ∈ cats ↔ c ∈ category <$> df).
Proof.
  intros Hdf. rewrite analysis_tab_nonempty by done.
  destruct df as [|r df]; [done|]. rewrite !fmap_cons.
  set (ys := year r :: (year <$> df)).
  set (opts := merge_sort (flip Z.le) (unique ys)).
  destruct (foldr_max_spec (year r) (year <$> df)) as [Hmax_in Hmax_all].
  fold ys in Hmax_in, Hmax_all.
  assert (∀ y, y ∈ opts ↔ y ∈ ys) as Hopts.
  { intros y. unfold opts. rewrite merge_sort_Permutation.
    apply unique_first_occurrence. }
  assert (NoDup opts) as Hnd.
  { unfold opts. rewrite merge_sort_Permutation.
    apply unique_first_occurrence. }
  assert (StronglySorted (flip Z.le) opts) as Hsorted.
  { assert (Total (flip Z.le)) by (intros a b; unfold flip; lia).
    assert (Transitive (flip Z.le)) by (intros a b c; unfold flip; lia).
    apply (StronglySorted_merge_sort _). }
  exists opts, (foldr Z.max (year r) (year <$> df)),
    (unique (category r :: (category <$> df))).
  split_and!.
  - destruct w. simpl. apply elem_of_app. right. right. left.
  - destruct w. simpl. apply elem_of_app. right. do 3 right. left.
  - clear Hopts. induction Hsorted as [|a l _ IH Hall]; constructor.
    + apply IH. by apply NoDup_cons in Hnd as [_ ?].
    + apply NoDup_cons in Hnd as [Ha _]. apply Forall_forall.
      intros b Hb. eapply Forall_forall in Hall; [|done].
      unfold flip in Hall. assert (b ≠ a) by (by intros ->). lia.
  - done.
  - by eapply sorted_desc_head.
  - apply Forall_forall. intros r' Hr'.
    eapply Forall_forall in Hmax_all; [exact Hmax_all|].
    by apply (list_elem_of_fmap_2 year) in Hr'.
  - apply unique_first_occurrence.
  - apply unique_first_occurrence.
Qed.

Lemma analysis_controls_spec_witness :
  ∃ years latest cats,
    StMultiselectYear "Select Year(s)" years [latest]
      ∈ page (analysis_tab sample_df (Selection [] [] "All") world_empty).2
    ∧ StSelectbox "Select Category" ("All" :: cats)
      ∈ page (analysis_tab sample_df (Selection [] [] "All") world_empty).2
    ∧ StronglySorted (λ a b, b < a) years
    ∧ (∀ y, y ∈ years ↔ y ∈ year <$> sample_df)
    ∧ head years = Some latest
    ∧ Forall (λ r, year r ≤ latest) sample_df
    ∧ NoDup cats
    ∧ (∀ c, c ∈ cats ↔ c ∈ category <$> sample_df).
Proof.
  apply (analysis_controls_spec sample_df (Selection [] [] "All")
           world_empty).
  done.
Defined.

(** ** Whole runs of the script *)

Lemma expenses_tab_submitted (drv : driver) (f : form_input) (w : world) :
  submitted f = true →
  ∃ evs, expenses_tab drv f w
         = on_submit drv (in_date f) (in_value f) (in_category f)
             (in_comments f) (set_page (page w ++ evs) w)
         ∧ Forall (λ ev, is_report ev = false) evs
         ∧ Forall (λ ev, ∀ text, ev ≠ StSuccess text) evs.
Proof.
  intros Hf. destruct w as [st c ss out n p]. unfold expenses_tab.
  rewrite Hf. eexists.
  cbv [mbind script_bind bind show set_page
       store cache session_state stdout connects page].
  rewrite <- !app_assoc. split; [reflexivity|]. split; by repeat constructor.
Qed.

Lemma load_data_frame (drv : driver) (w : world) :
  store (load_data drv w).2 = store w
  ∧ page (load_data drv w).2 = page w
  ∧ session_state (load_data drv w).2 = session_state w
  ∧ (load_data drv w).1 ≠ Rerun.
Proof.
  destruct (cache w) as [df|] eqn:Hcache.
  { by rewrite (load_data_cached drv w df Hcache). }
  destruct (connect_fails drv (connects w)) as [e|] eqn:Hconn.
  - destruct (load_data_connection_failure drv w e Hcache Hconn)
      as (w' & Hload & _ & ? & ? & _).
    assert (session_state (load_data drv w).2 = session_state w) as Hss.
    { unfold load_data, load_data_body. rewrite Hcache.
      cbv [mbind script_bind bind]. rewrite get_connection_eq, Hconn.
      by destruct e. }
    rewrite Hload in *.
    by split_and!.
  - by rewrite (load_data_fresh drv w Hcache Hconn).
Qed.

Lemma main_eq (drv : driver) (today : date) (f : form_input)
    (sel : selection) (w : world) :
  main drv today f sel w
  = match expenses_tab drv f
            (set_session_state (session_state w ∪ form_defaults today)
               (set_page
                  (page w ++
                   [StMarkdown
                      "<h1 style='text-align: center; color: gray;'>Finance Performance Tracking</h1>"])
                  w)) with
    | (Ret _, w1) =>
        match load_data drv w1 with
        | (Ret df, w2) => analysis_tab df sel w2
        | (Raise e, w2) => (Raise e, w2)
        | (Rerun, w2) => (Rerun, w2)
        end
    | (Raise e, w1) => (Raise e, w1)
    | (Rerun, w1) => (Rerun, w1)
    end.
Proof.
  unfold main. rewrite show_bind. cbv [mbind script_bind bind].
  rewrite init_session_state_spec. by destruct w.
Qed.

Lemma load_data_coherent (drv : driver) (w : world) :
  cache_coherent w → cache_coherent (load_data drv w).2.
Proof.
  intros Hcoh. destruct (cache w) as [df|] eqn:Hcache.
  { by rewrite (load_data_cached drv w df Hcache). }
  destruct (connect_fails drv (connects w)) as [e|] eqn:Hconn.
  - destruct (load_data_connection_failure drv w e Hcache Hconn)
      as (w' & -> & Hc & _). unfold cache_coherent. simpl. by rewrite Hc.
  - rewrite (load_data_fresh drv w Hcache Hconn). unfold cache_coherent.
    by destruct w.
Qed.

(** The cache never goes stale through this script: if the cached table,
    when present, is the table of the store before a run, the same holds
    after the run, whatever the user does and whatever the driver
    answers. *)
Theorem main_keeps_cache_coherent (drv : driver) (today : date)
    (f : form_input) (sel : selection) (w : world) :
  cache_coherent w → cache_coherent (main drv today f sel w).2.
Proof.
  intros Hcoh. rewrite main_eq.
  match goal with |- context [expenses_tab drv f ?w0] => set (W0 := w0) end.
  assert (cache_coherent W0) as HW0 by (by destruct w).
  destruct (submitted f) eqn:Hf.
  - destruct (expenses_tab_submitted drv f W0 Hf) as (evs & -> & _).
    match goal with |- context [on_submit _ _ _ _ _ ?w1] => set (W1 := w1) end.
    assert (cache_coherent W1) as HW1 by (by destruct w).
    destruct (on_submit_cases drv (in_date f) (in_value f) (in_category f)
                (in_comments f) W1)
      as [[_ (w' & -> & _ & Hc & _)] | [_ (e & w' & -> & Hst & Hc & _)]];
      simpl; unfold cache_coherent in *.
    + by rewrite Hc.
    + by rewrite Hc, Hst.
  - destruct (expenses_tab_idle drv f W0 Hf) as (evs & -> & _).
    match goal with |- context [load_data drv ?w1] => set (W1 := w1) end.
    assert (cache_coherent W1) as HW1 by (by destruct w).
    apply (load_data_coherent drv) in HW1.
    destruct (load_data drv W1) as [[df|e|] w2]; simpl in *; [|done..].
    destruct (analysis_tab_page df sel w2) as [evs' ->]. by destruct w2.
Qed.

Lemma main_keeps_cache_coherent_witness :
  cache_coherent
    (main drv_ok (Date 2024 3 5)
       (FormInput (Date 2024 3 5) 4250 "Bills" "electric" true)
       (Selection [] [] "All") world_cached).2.
Proof.
  apply (main_keeps_cache_coherent drv_ok (Date 2024 3 5)
           (FormInput (Date 2024 3 5) 4250 "Bills" "electric" true)
           (Selection [] [] "All") world_cached).
  reflexivity.
Defined.

Lemma main_submit_success (drv : driver) (today : date) (f : form_input)
    (sel : selection) (w : world) :
  submitted f = true → submit_ok drv w →
  ∃ w1 evs,
    main drv today f sel w = (Rerun, w1)
    ∧ store w1 = store w ++ [Expense (in_date f) (in_value f)
                               (in_category f) (in_comments f)]
    ∧ cache w1 = None
    ∧ connects w1 = S (connects w)
    ∧ (∀ k, session_state w1 !! k
            = if decide (k ∈ form_keys) then None else session_state w !! k)
    ∧ page w1 = page w ++ evs
    ∧ Forall (λ ev, is_report ev = false) evs.
Proof.
  intros Hf Hok. rewrite main_eq.
  match goal with |- context [expenses_tab drv f ?w0] => set (W0 := w0) end.
  destruct (expenses_tab_submitted drv f W0 Hf) as (evs & -> & Hevs & _).
  match goal with |- context [on_submit _ _ _ _ _ ?w1] => set (W1 := w1) end.
  assert (submit_ok drv W1) as Hok1 by (by destruct w).
  destruct (on_submit_success_resets_form drv (in_date f) (in_value f)
              (in_category f) (in_comments f) W1 Hok1)
    as (w1 & Hrun & Hss & _ & Hpage & Hn).
  destruct (on_submit_cases drv (in_date f) (in_value f) (in_category f)
              (in_comments f) W1)
    as [[_ (w1' & Hrun' & Hst & Hcache & _)] | [? _]]; [|done].
  rewrite Hrun in Hrun'. injection Hrun' as <-. rewrite Hrun.
  eexists w1, _. split; [reflexivity|]. split_and!.
  - rewrite Hst. by destruct w.
  - done.
  - rewrite Hn. by destruct w.
  - intros k. rewrite Hss. case_decide as Hk; [done|].
    assert (session_state W1 !! k
            = (session_state w ∪ form_defaults today) !! k) as ->
      by (by destruct w).
    apply lookup_union_l, eq_None_not_Some.
    by rewrite form_defaults_lookup.
  - rewrite Hpage.
    assert (page W1 = page w ++
              StMarkdown
                "<h1 style='text-align: center; color: gray;'>Finance Performance Tracking</h1>"
              :: evs) as -> by (destruct w; simpl; by rewrite <- app_assoc).
    rewrite <- app_assoc. reflexivity.
  - rewrite Forall_app. split; [|by repeat constructor].
    by constructor.
Qed.

Lemma main_idle_load (drv : driver) (today : date) (f : form_input)
    (sel : selection) (w : world) :
  submitted f = false → cache w = None →
  connect_fails drv (connects w) = None →
  ∃ w2, main drv today f sel w = (Ret (), w2)
        ∧ store w2 = store w
        ∧ cache w2 = Some (derive <$> store w)
        ∧ session_state w2 = session_state w ∪ form_defaults today
        ∧ connects w2 = S (connects w).
Proof.
  intros Hf Hcache Hconn. rewrite main_eq.
  match goal with |- context [expenses_tab drv f ?w0] =>
    destruct (expenses_tab_idle drv f w0 Hf) as (evs & -> & _) end.
  rewrite load_data_fresh by (by destruct w).
  match goal with |- context [analysis_tab ?df sel ?w0] =>
    destruct (analysis_tab_page df sel w0) as [evs' ->] end.
  eexists. split; [reflexivity|]. by destruct w.
Qed.


(** A committed submission ends its run with a rerun before any metric,
    chart or listing is drawn; the run that follows reads the store afresh,
    so the cached table then holds the new record last, and every form key
    is back at its default while the other session keys are kept. *)
Theorem submit_then_rerun (drv : driver) (today : date) (f f' : form_input)
    (sel : selection) (w : world) :
  submitted f = true → submitted f' = false →
  submit_ok drv w → connect_fails drv (S (connects w)) = None →
  ∃ w1 w2 evs,
    main drv today f sel w = (Rerun, w1)
    ∧ page w1 = page w ++ evs
    ∧ Forall (λ ev, is_report ev = false) evs
    ∧ main drv today f' sel w1 = (Ret (), w2)
    ∧ store w2 = store w ++ [Expense (in_date f) (in_value f)
                               (in_category f) (in_comments f)]
    ∧ cache w2 = Some (derive <$> store w2)
    ∧ session_state w2 = form_defaults today ∪ session_state w
    ∧ connects w2 = S (S (connects w)).
Proof.
  intros Hf Hf' Hok Hconn.
  destruct (main_submit_success drv today f sel w Hf Hok)
    as (w1 & evs & Hrun1 & Hst1 & Hc1 & Hn1 & Hss1 & Hp1 & Hevs).
  destruct (main_idle_load drv today f' sel w1 Hf' Hc1)
    as (w2 & Hrun2 & Hst2 & Hc2 & Hss2 & Hn2); [by rewrite Hn1|].
  exists w1, w2, evs.
  split; [exact Hrun1|]. split; [exact Hp1|]. split; [exact Hevs|].
  split; [exact Hrun2|]. split_and!.
  - by rewrite Hst2.
  - by rewrite Hc2, Hst2.
  - rewrite Hss2. apply map_eq. intros k. rewrite !lookup_union, Hss1.
    destruct (decide (k ∈ form_keys)) as [Hk|Hk].
    + apply (form_defaults_lookup today) in Hk as [v ->].
      by rewrite (left_id_L None _), union_Some_l.
    + assert (form_defaults today !! k = None) as ->.
      { apply eq_None_not_Some. by rewrite form_defaults_lookup. }
      by rewrite (left_id_L None _), (right_id_L None _).
  - by rewrite Hn2, Hn1.
Qed.

Lemma submit_then_rerun_witness :
  ∃ w1 w2 evs,
    main drv_ok (Date 2024 3 6)
      (FormInput (Date 2024 3 5) 4250 "Bills" "electric" true)
      (Selection [2024] [] "All") world_cached = (Rerun, w1)
    ∧ page w1 = page world_cached ++ evs
    ∧ Forall (λ ev, is_report ev = false) evs
    ∧ main drv_ok (Date 2024 3 6)
        (FormInput (Date 2024 3 6) 0 "Grocery Shopping" "" false)
        (Selection [2024] [] "All") w1 = (Ret (), w2)
    ∧ store w2 = store world_cached ++ [rec_electric]
    ∧ cache w2 = Some (derive <$> store w2)
    ∧ session_state w2
      = form_defaults (Date 2024 3 6) ∪ session_state world_cached
    ∧ connects w2 = S (S (connects world_cached)).
Proof.
  apply (submit_then_rerun drv_ok (Date 2024 3 6)
           (FormInput (Date 2024 3 5) 4250 "Bills" "electric" true)
           (FormInput (Date 2024 3 6) 0 "Grocery Shopping" "" false)
           (Selection [2024] [] "All") world_cached);
    try reflexivity.
  repeat split; reflexivity.
Defined.

(** When nothing is cached and the connection cannot be made, a run
    without a submission ends with the driver's exception: no metric, chart
    or listing reaches the page, nothing is cached and the store is
    untouched. *)
Theorem main_load_failure (drv : driver) (today : date) (f : form_input)
    (sel : selection) (w : world) (e : exn) :
  submitted f = false → cache w = None →
  connect_fails drv (connects w) = Some e →
  ∃ w' evs, main drv today f sel w = (Raise e, w')
            ∧ page w' = page w ++ evs
            ∧ Forall (λ ev, is_report ev = false) evs
            ∧ cache w' = None
            ∧ store w' = store w.
Proof.
  intros Hf Hcache Hconn. rewrite main_eq.
  match goal with |- context [expenses_tab drv f ?w0] =>
    destruct (expenses_tab_idle drv f w0 Hf) as (evs & -> & Hevs) end.
  match goal with |- context [load_data drv ?w0] =>
    destruct (load_data_connection_failure drv w0 e)
      as (w' & -> & Hc & Hst & Hp & _); [by destruct w..|] end.
  eexists w', _. split; [reflexivity|]. split_and!.
  - rewrite Hp. destruct w. simpl. rewrite <- app_assoc. reflexivity.
  - by constructor.
  - done.
  - rewrite Hst. by destruct w.
Qed.

Lemma main_load_failure_witness :
  ∃ w' evs,
    main drv_down (Date 2024 3 6)
      (FormInput (Date 2024 3 6) 0 "Grocery Shopping" "" false)
      (Selection [] [] "All") world_empty
    = (Raise (PyodbcError "login timeout expired"), w')
    ∧ page w' = page world_empty ++ evs
    ∧ Forall (λ ev, is_report ev = false) evs
    ∧ cache w' = None
    ∧ store w' = store world_empty.
Proof.
  apply (main_load_failure drv_down (Date 2024 3 6)
           (FormInput (Date 2024 3 6) 0 "Grocery Shopping" "" false)
           (Selection [] [] "All") world_empty); reflexivity.
Defined.

(** A submission that the driver refuses at any of its three calls ends
    the run with an exception: the store and the cache are as before and
    no success message, metric, chart or listing reaches the page. *)
Theorem main_submit_failure (drv : driver) (today : date) (f : form_input)
    (sel : selection) (w : world) :
  submitted f = true → ¬ submit_ok drv w →
  ∃ e w' evs, main drv today f sel w = (Raise e, w')
              ∧ store w' = store w
              ∧ cache w' = cache w
              ∧ page w' = page w ++ evs
              ∧ Forall (λ ev, ∀ text, ev ≠ StSuccess text) evs
              ∧ Forall (λ ev, is_report ev = false) evs.
Proof.
  intros Hf Hno. rewrite main_eq.
  match goal with |- context [expenses_tab drv f ?w0] => set (W0 := w0) end.
  destruct (expenses_tab_submitted drv f W0 Hf) as (evs & -> & Hevs & Hns).
  match goal with |- context [on_submit _ _ _ _ _ ?w1] => set (W1 := w1) end.
  destruct (on_submit_cases drv (in_date f) (in_value f) (in_category f)
              (in_comments f) W1)
    as [[Hok _] | [_ (e & w' & -> & Hst & Hc & _ & _ & Hp)]].
  { destruct Hno. by destruct w. }
  eexists e, w', _. split; [reflexivity|]. split_and!.
  - rewrite Hst. by destruct w.
  - rewrite Hc. by destruct w.
  - rewrite Hp. destruct w. simpl. rewrite <- app_assoc. reflexivity.
  - by constructor.
  - by constructor.
Qed.

Lemma main_submit_failure_witness :
  ∃ e w' evs,
    main drv_commit_fails (Date 2024 3 6)
      (FormInput (Date 2024 3 5) 4250 "Bills" "electric" true)
      (Selection [] [] "All") world_cached = (Raise e, w')
    ∧ store w' = store world_cached
    ∧ cache w' = cache world_cached
    ∧ page w' = page world_cached ++ evs
    ∧ Forall (λ ev, ∀ text, ev ≠ StSuccess text) evs
    ∧ Forall (λ ev, is_report ev = false) evs.
Proof.
  apply (main_submit_failure drv_commit_fails (Date 2024 3 6)
           (FormInput (Date 2024 3 5) 4250 "Bills" "electric" true)
           (Selection [] [] "All") world_cached); [reflexivity|].
  intros (_ & _ & Hcommit). simpl in Hcommit. discriminate.
Defined.

(** The listing under the charts shows stored records only: for a table
    loaded from a store, the listed rows are records of that store,
    unmodified and in store order. *)
Theorem listing_sublist_of_store (st : list expense) (ys : list Z)
    (ms : list string) (c : string) :
  four_columns <$> filtered_df (derive <$> st) ys ms c `sublist_of` st.
Proof.
  assert (four_columns <$> (derive <$> st) = st) as Hst.
  { rewrite <- list_fmap_compose. apply list_eq. intros i.
    rewrite list_lookup_fmap. destruct (st !! i); [|done].
    simpl. by rewrite four_columns_derive. }
  rewrite <- Hst at 2. apply fmap_sublist.
  rewrite filtered_df_passes. apply sublist_filter.
Qed.

(** A run of the script never removes or changes a stored record, and it
    adds one exactly when a submission is made and the driver answers its
    three calls: the store is then the store before followed by the
    submitted record; in every other case (no submission, or one that the
    driver refuses) the store is as before. *)
Theorem main_store_append_only (drv : driver) (today : date)
    (f : form_input) (sel : selection) (w : world) :
  store (main drv today f sel w).2
  = if decide (submitted f = true ∧ submit_ok drv w)
    then store w ++ [Expense (in_date f) (in_value f) (in_category f)
                       (in_comments f)]
    else store w.
Proof.
  rewrite main_eq.
  match goal with |- context [expenses_tab drv f ?w0] => set (W0 := w0) end.
  destruct (submitted f) eqn:Hf.
  - destruct (expenses_tab_submitted drv f W0 Hf) as (evs & -> & _).
    match goal with |- context [on_submit _ _ _ _ _ ?w1] => set (W1 := w1) end.
    assert (store W1 = store w) as HW1 by (by destruct w).
    assert (submit_ok drv W1 ↔ submit_ok drv w) as Hok by (by destruct w).
    destruct (on_submit_cases drv (in_date f) (in_value f) (in_category f)
                (in_comments f) W1)
      as [[Hok1 (w' & -> & Hst & _)] | [Hno (e & w' & -> & Hst & _)]];
      cbn [snd].
    + rewrite decide_True by (split; [done | by apply Hok]).
      by rewrite Hst, HW1.
    + rewrite decide_False by (intros [_ ?]; by apply Hno, Hok).
      by rewrite Hst.
  - rewrite decide_False by (by intros [? _]).
    destruct (expenses_tab_idle drv f W0 Hf) as (evs & -> & _).
    match goal with |- context [load_data drv ?w1] => set (W1 := w1) end.
    assert (store W1 = store w) as HW1 by (by destruct w).
    destruct (load_data_frame drv W1) as (Hst & _ & _ & Hrr).
    destruct (load_data drv W1) as [[df|e|] w2]; cbn [fst snd] in *;
      [|congruence..].
    destruct (analysis_tab_page df sel w2) as [evs' ->]. cbn [snd].
    destruct w2. simpl in *. congruence.
Qed.
